(** * Theia file-system core: change events, error taxonomy, capabilities, etags

    Shallow embedding of the file-system module that declares
    [FileChangesEvent], [FileSystemProvider], the two error levels and
    [etag], and of
    [packages/workspace/src/browser/workspace-duplicate-handler.ts].

    JavaScript values are modelled as follows.
    - A string is a [string]; one [ascii] stands for one code unit.
    - A number that holds an integer (a time in milliseconds, a size in
      bytes, a capability bitset) is a [Z]; [undefined] is [None].  What
      is said of the digits that a number is printed with is said of the
      safe integers, those below 2^53 in absolute value.
    - An object of a class hierarchy is a record with a tag for its class.
    - A promise is modelled by the way it settles. *)

From Stdlib Require Import List String Ascii ZArith NArith Lia Bool Permutation.
Import ListNotations.
Open Scope string_scope.

(** ** JavaScript primitives used by the source *)

Module JS.

(** [s.endsWith(suf)] together with the part before the suffix:
    [strip_suffix suf s = Some p] exactly when [s = p ++ suf]. *)
Fixpoint strip_suffix (suf s : string) : option string :=
  if (s =? suf)%string then Some EmptyString
  else match s with
       | EmptyString => None
       | String c s' => option_map (String c) (strip_suffix suf s')
       end.

(** The characters that [.] does not match in a regular expression
    (line feed and carriage return in this alphabet). *)
Definition is_line_terminator (c : ascii) : bool :=
  (c =? "010")%char || (c =? "013")%char.

Fixpoint no_line_terminator (s : string) : bool :=
  match s with
  | EmptyString => true
  | String c s' => negb (is_line_terminator c) && no_line_terminator s'
  end.

(** Truthiness of a string: every string but the empty one. *)
Definition truthy_string (s : string) : bool := negb (s =? EmptyString)%string.

(** [ToInt32]: the operand conversion of the bitwise operators. *)
Definition ToInt32 (n : Z) : Z :=
  let m := (n mod 2 ^ 32)%Z in
  if (m <? 2 ^ 31)%Z then m else (m - 2 ^ 32)%Z.

(** [a & b] on numbers. *)
Definition bitand (a b : Z) : Z := Z.land (ToInt32 a) (ToInt32 b).

(** [!!n] for a number. *)
Definition truthy_number (n : Z) : bool := negb (n =? 0)%Z.

(** *** [Number.prototype.toString(radix)] on integers *)

(** The digit characters [0-9a-z]. *)
Definition digit_char (d : N) : ascii :=
  if (d <? 10)%N then ascii_of_N (48 + d) else ascii_of_N (87 + d).

(** Digits of [n] in base [radix], most significant first.  The loop
    divides by the radix until the quotient is a single digit; [fuel]
    bounds the number of divisions. *)
Fixpoint digits_loop (fuel : nat) (radix n : N) : list N :=
  match fuel with
  | O => [n]
  | S fuel' =>
      if (n <? radix)%N then [n]
      else digits_loop fuel' radix (n / radix) ++ [(n mod radix)%N]
  end.

(** The binary size of [n] is enough fuel for every radix from 2 up. *)
Definition digits (radix n : N) : list N :=
  digits_loop (N.to_nat (N.size n)) radix n.

Definition digits_string (radix n : N) : string :=
  string_of_list_ascii (map digit_char (digits radix n)).

(** [n.toString(radix)]: a minus sign for a negative number, then the
    digits of the absolute value.  These are the characters printed for
    a safe integer, below 2^53 in absolute value.  From 2^53 up a number
    is a double that is printed to its precision only, and a number
    with a fraction has no value here: where the digits matter the
    properties are stated on safe integers. *)
Definition toString (radix : N) (n : Z) : string :=
  if (n <? 0)%Z then String "-" (digits_string radix (Z.abs_N n))
  else digits_string radix (Z.abs_N n).

End JS.


(** ** Resource identifiers *)

Module Uri.

(** Modelled from the spec: the resource identifier class [URI] of
    [@theia/core/lib/common/uri] is not among the source files.  The spec
    gives it as a hierarchical locator, scheme plus path, with equality
    and parent/child containment queries.  A path is kept as its list of
    segments. *)
Record URI := { scheme : string; path : list string }.

Fixpoint join_path (segments : list string) : string :=
  match segments with
  | [] => EmptyString
  | seg :: rest => "/" ++ seg ++ join_path rest
  end.

(** Modelled from the spec: [uri.toString()], the canonical string of
    the identifier. *)
Definition toString (u : URI) : string :=
  scheme u ++ "://" ++ join_path (path u).

Fixpoint is_prefix (p q : list string) : bool :=
  match p, q with
  | [], _ => true
  | _ :: _, [] => false
  | a :: p', b :: q' => (a =? b)%string && is_prefix p' q'
  end.

(** Modelled from the spec: [this.isEqualOrParent(other)], the
    containment query of the identifier, read as the method is named:
    the receiver is equal to [other] or is a parent folder of [other]. *)
Definition isEqualOrParent (this other : URI) : bool :=
  (scheme this =? scheme other)%string && is_prefix (path this) (path other).

(** [r] is equal to [d] or lies below [d]. *)
Definition isEqualOrDescendant (r d : URI) : bool :=
  (scheme r =? scheme d)%string && is_prefix (path d) (path r).

(** Modelled from the spec: [uri.parent], the identifier of the
    enclosing folder. *)
Definition parent (u : URI) : URI :=
  {| scheme := scheme u; path := removelast (path u) |}.

Definition file (segments : list string) : URI :=
  {| scheme := "file"; path := segments |}.

End Uri.

(** ** The file-system module *)

Module Files.

Export Uri.

(** *** Metadata *)

(** [FileStatWithMetadata]: the identifier, the name and the resolved
    metadata of a file or folder. *)
Record FileStatWithMetadata := {
  stat_resource : URI;
  stat_name : string;
  stat_mtime : Z;
  stat_ctime : Z;
  stat_etag : string;
  stat_size : Z;
  stat_isFile : bool;
  stat_isDirectory : bool;
  stat_isSymbolicLink : bool
}.

(** *** Operation events *)

Inductive FileOperation := CREATE | DELETE | MOVE | COPY.

Definition FileOperation_eqb (a b : FileOperation) : bool :=
  match a, b with
  | CREATE, CREATE | DELETE, DELETE | MOVE, MOVE | COPY, COPY => true
  | _, _ => false
  end.

(** The operations of the second constructor overload,
    [FileOperation.CREATE | FileOperation.MOVE | FileOperation.COPY]. *)
Inductive TargetOperation := T_CREATE | T_MOVE | T_COPY.

Definition TargetOperation_op (o : TargetOperation) : FileOperation :=
  match o with T_CREATE => CREATE | T_MOVE => MOVE | T_COPY => COPY end.

(** The three [public readonly] fields. *)
Record FileOperationEvent := {
  resource : URI;
  operation : FileOperation;
  target : option FileStatWithMetadata
}.

(** The implementation signature of the constructor. It stores its
    arguments; it is not callable from outside the class. *)
Definition FileOperationEvent_impl
    (resource : URI) (operation : FileOperation)
    (target : option FileStatWithMetadata) : FileOperationEvent :=
  {| resource := resource; operation := operation; target := target |}.

(** Overload 1: [constructor(resource, operation: FileOperation.DELETE)]. *)
Definition new_FileOperationEvent_delete (resource : URI) : FileOperationEvent :=
  FileOperationEvent_impl resource DELETE None.

(** Overload 2: [constructor(resource, operation: CREATE | MOVE | COPY,
    target: FileStatWithMetadata)]. *)
Definition new_FileOperationEvent_target
    (resource : URI) (operation : TargetOperation)
    (target : FileStatWithMetadata) : FileOperationEvent :=
  FileOperationEvent_impl resource (TargetOperation_op operation) (Some target).

(** The events a caller can build: the images of the two overloads. *)
Inductive constructed : FileOperationEvent -> Prop :=
| constructed_delete : forall r, constructed (new_FileOperationEvent_delete r)
| constructed_target : forall r o t,
    constructed (new_FileOperationEvent_target r o t).

Definition isOperation (this : FileOperationEvent) (op : FileOperation) : bool :=
  FileOperation_eqb (operation this) op.

(** The methods of the class as steps on the object: a call returns its
    result and leaves the object as it found it, there being no
    assignment to a field outside the constructor. *)
Inductive event_step : FileOperationEvent -> FileOperationEvent -> Prop :=
| step_isOperation : forall e op (b : bool),
    isOperation e op = b -> event_step e e.

Inductive event_steps : FileOperationEvent -> FileOperationEvent -> Prop :=
| steps_refl : forall e, event_steps e e
| steps_cons : forall e1 e2 e3,
    event_step e1 e2 -> event_steps e2 e3 -> event_steps e1 e3.

(** The invariant on the optional metadata. *)
Definition target_invariant (e : FileOperationEvent) : Prop :=
  match operation e with
  | DELETE => target e = None
  | CREATE | MOVE | COPY => target e <> None
  end.

(** *** Change events *)

Inductive FileChangeType := UPDATED | ADDED | DELETED.

Definition FileChangeType_eqb (a b : FileChangeType) : bool :=
  match a, b with
  | UPDATED, UPDATED | ADDED, ADDED | DELETED, DELETED => true
  | _, _ => false
  end.

Record FileChange := { change_type : FileChangeType; change_resource : URI }.

(** [new FileChangesEvent(changes)]: the one field is [readonly]. *)
Record FileChangesEvent := { changes : list FileChange }.

(** [typeof type === 'number'] for the optional argument. *)
Definition is_number (type : option FileChangeType) : bool :=
  match type with Some _ => true | None => false end.

(** [change.type !== type]; a kind never equals [undefined]. *)
Definition strict_neq (t : FileChangeType) (type : option FileChangeType) : bool :=
  match type with
  | Some t' => negb (FileChangeType_eqb t t')
  | None => true
  end.

(** The callback given to [some] in [contains]. *)
Definition contains_callback (resource : URI) (type : option FileChangeType)
    (change : FileChange) : bool :=
  let checkForChangeType := is_number type in
  if checkForChangeType && strict_neq (change_type change) type then false
  else if FileChangeType_eqb (change_type change) DELETED
       then isEqualOrParent resource (change_resource change)
       else (Uri.toString resource =? Uri.toString (change_resource change))%string.

Definition contains (this : FileChangesEvent)
    (resource : option URI) (type : option FileChangeType) : bool :=
  match resource with
  | None => false
  | Some resource => existsb (contains_callback resource type) (changes this)
  end.

Definition getOfType (this : FileChangesEvent) (type : FileChangeType) : list FileChange :=
  filter (fun change => FileChangeType_eqb (change_type change) type) (changes this).

Definition hasType (this : FileChangesEvent) (type : FileChangeType) : bool :=
  existsb (fun change => FileChangeType_eqb (change_type change) type) (changes this).

Definition getAdded (this : FileChangesEvent) := getOfType this ADDED.
Definition gotAdded (this : FileChangesEvent) := hasType this ADDED.
Definition getDeleted (this : FileChangesEvent) := getOfType this DELETED.
Definition gotDeleted (this : FileChangesEvent) := hasType this DELETED.
Definition getUpdated (this : FileChangesEvent) := getOfType this UPDATED.
Definition gotUpdated (this : FileChangesEvent) := hasType this UPDATED.

(** [array.length > 0]. *)
Definition non_empty {A : Type} (l : list A) : bool :=
  match l with [] => false | _ :: _ => true end.

(** *** Errors *)

Inductive FileOperationResult :=
| FILE_IS_DIRECTORY
| FILE_NOT_FOUND
| FILE_NOT_MODIFIED_SINCE
| FILE_MODIFIED_SINCE
| FILE_MOVE_CONFLICT
| FILE_READ_ONLY
| FILE_PERMISSION_DENIED
| FILE_TOO_LARGE
| FILE_INVALID_PATH
| FILE_EXCEEDS_MEMORY_LIMIT
| FILE_NOT_DIRECTORY
| FILE_OTHER_ERROR.

(** [enum FileSystemProviderErrorCode] is a string enum: a code is the
    string it is written as. *)
Definition FileSystemProviderErrorCode := string.

Definition FileExists : FileSystemProviderErrorCode := "EntryExists".
Definition FileNotFound : FileSystemProviderErrorCode := "EntryNotFound".
Definition FileNotADirectory : FileSystemProviderErrorCode := "EntryNotADirectory".
Definition FileIsADirectory : FileSystemProviderErrorCode := "EntryIsADirectory".
Definition NoPermissions : FileSystemProviderErrorCode := "NoPermissions".
Definition Unavailable : FileSystemProviderErrorCode := "Unavailable".
Definition Unknown : FileSystemProviderErrorCode := "Unknown".

(** The members of the enumeration. *)
Definition provider_codes : list FileSystemProviderErrorCode :=
  [FileExists; FileNotFound; FileNotADirectory; FileIsADirectory;
   NoPermissions; Unavailable; Unknown].

(** [ReadFileOptions & WriteFileOptions & CreateFileOptions]. *)
Record FileOperationOptions := {
  opt_position : option Z;
  opt_length : option Z;
  opt_etag : option string;
  opt_mtime : option Z;
  opt_overwrite : option bool
}.

(** The class of an error object, with the fields the class adds. *)
Inductive ErrorClass :=
| PlainError
| FileSystemProviderError (code : FileSystemProviderErrorCode)
| FileOperationError (fileOperationResult : FileOperationResult)
                     (options : option FileOperationOptions).

(** An [Error] object: its class and the two fields of every error. *)
Record Error := {
  error_class : ErrorClass;
  error_name : string;
  error_message : string
}.

Definition markAsFileSystemProviderError (error : Error)
    (code : FileSystemProviderErrorCode) : Error :=
  {| error_class := error_class error;
     error_name := if JS.truthy_string code
                   then code ++ " (FileSystemError)"
                   else "FileSystemError";
     error_message := error_message error |}.

(** [/^(.+) \(FileSystemError\)$/.exec(name)]: the first group of the
    match, if the name matches. *)
Definition exec_FileSystemError (name : string) : option string :=
  match JS.strip_suffix " (FileSystemError)" name with
  | Some group =>
      if JS.truthy_string group && JS.no_line_terminator group
      then Some group else None
  | None => None
  end.

(** The [switch (match[1])] of [toFileSystemProviderErrorCode]. *)
Definition switch_match (group : string) : FileSystemProviderErrorCode :=
  if (group =? FileExists)%string then FileExists
  else if (group =? FileIsADirectory)%string then FileIsADirectory
  else if (group =? FileNotADirectory)%string then FileNotADirectory
  else if (group =? FileNotFound)%string then FileNotFound
  else if (group =? NoPermissions)%string then NoPermissions
  else if (group =? Unavailable)%string then Unavailable
  else Unknown.

Definition toFileSystemProviderErrorCode (error : option Error)
    : FileSystemProviderErrorCode :=
  match error with
  | None => Unknown
  | Some error =>
      match error_class error with
      | FileSystemProviderError code => code
      | _ =>
          match exec_FileSystemError (error_name error) with
          | None => Unknown
          | Some group => switch_match group
          end
      end
  end.

Definition toFileOperationResult (error : Error) : FileOperationResult :=
  match error_class error with
  | FileOperationError fileOperationResult _ => fileOperationResult
  | _ =>
      let code := toFileSystemProviderErrorCode (Some error) in
      if (code =? FileNotFound)%string then FILE_NOT_FOUND
      else if (code =? FileIsADirectory)%string then FILE_IS_DIRECTORY
      else if (code =? FileNotADirectory)%string then FILE_NOT_DIRECTORY
      else if (code =? NoPermissions)%string then FILE_PERMISSION_DENIED
      else if (code =? FileExists)%string then FILE_MOVE_CONFLICT
      else FILE_OTHER_ERROR
  end.

(** A generic error channel: what arrives is a plain [Error] with the
    name and the message of what was sent; the class and the fields it
    added are gone. *)
Definition through_error_channel (error : Error) : Error :=
  {| error_class := PlainError;
     error_name := error_name error;
     error_message := error_message error |}.

(** *** Capabilities *)

Definition FileReadWrite : Z := Z.shiftl 1 1.
Definition FileOpenReadWriteClose : Z := Z.shiftl 1 2.
Definition FileFolderCopy : Z := Z.shiftl 1 3.
Definition PathCaseSensitive : Z := Z.shiftl 1 10.
Definition Readonly : Z := Z.shiftl 1 11.
Definition Trash : Z := Z.shiftl 1 12.

(** A provider: its capability bitset and its operations.  The
    operations belong to the backend and are kept abstract. *)
Record FileSystemProvider (Backend : Type) := {
  capabilities : Z;
  backend : Backend
}.
Arguments capabilities {Backend} _.
Arguments backend {Backend} _.

Definition hasReadWriteCapability {B} (provider : FileSystemProvider B) : bool :=
  JS.truthy_number (JS.bitand (capabilities provider) FileReadWrite).

Definition hasFileFolderCopyCapability {B} (provider : FileSystemProvider B) : bool :=
  JS.truthy_number (JS.bitand (capabilities provider) FileFolderCopy).

Definition hasOpenReadWriteCloseCapability {B} (provider : FileSystemProvider B) : bool :=
  JS.truthy_number (JS.bitand (capabilities provider) FileOpenReadWriteClose).

(** *** Etags *)

Definition ETAG_DISABLED : string := EmptyString.

(** The argument of [etag]: each field is a number or [undefined]. *)
Record EtagInput := { mtime : option Z; size : option Z }.

Definition etag (stat : EtagInput) : option string :=
  match size stat, mtime stat with
  | Some size, Some mtime => Some (JS.toString 29 mtime ++ JS.toString 31 size)
  | _, _ => None
  end.

(** *** Constructing errors *)

(** [new FileOperationError(message, fileOperationResult, options)]; the
    name is the one every error inherits. *)
Definition new_FileOperationError (message : string)
    (fileOperationResult : FileOperationResult)
    (options : option FileOperationOptions) : Error :=
  {| error_class := FileOperationError fileOperationResult options;
     error_name := "Error";
     error_message := message |}.

(** [new FileSystemProviderError(message, code)]. *)
Definition new_FileSystemProviderError (message : string)
    (code : FileSystemProviderErrorCode) : Error :=
  {| error_class := FileSystemProviderError code;
     error_name := "Error";
     error_message := message |}.

(** [Error.prototype.toString]: the name, a colon and the message, or
    the one of the two that is not empty. *)
Definition Error_toString (error : Error) : string :=
  if (error_name error =? EmptyString)%string then error_message error
  else if (error_message error =? EmptyString)%string then error_name error
  else error_name error ++ ": " ++ error_message error.

(** [error.toString()] for the argument type [Error | string]. *)
Definition Error_or_string_toString (error : Error + string) : string :=
  match error with
  | inl e => Error_toString e
  | inr s => s
  end.

Definition createFileSystemProviderError (error : Error + string)
    (code : FileSystemProviderErrorCode) : Error :=
  let providerError :=
    new_FileSystemProviderError (Error_or_string_toString error) code in
  markAsFileSystemProviderError providerError code.

Definition ensureFileSystemProviderError (error : option Error) : Error :=
  match error with
  | None => createFileSystemProviderError (inr "Unknown Error") Unknown
  | Some error => error
  end.

(** *** Run-time guards of the stat interfaces *)

(** A JavaScript value as the guards inspect it.  An object is given by
    whether it is an instance of [URI] and by its properties, own or
    inherited. *)
#[local] Unset Elimination Schemes.
Inductive JSValue :=
| JUndefined
| JNull
| JBoolean (b : bool)
| JNumber (n : Z)
| JString (s : string)
| JObject (instanceof_URI : bool) (properties : string -> option JSValue).
#[local] Set Elimination Schemes.

(** [!!v]. *)
Definition truthy (v : JSValue) : bool :=
  match v with
  | JUndefined | JNull => false
  | JBoolean b => b
  | JNumber n => JS.truthy_number n
  | JString s => JS.truthy_string s
  | JObject _ _ => true
  end.

(** [typeof v === 'object']; it holds of [null] too. *)
Definition typeof_object (v : JSValue) : bool :=
  match v with JNull | JObject _ _ => true | _ => false end.

Definition typeof_string (v : JSValue) : bool :=
  match v with JString _ => true | _ => false end.

Definition typeof_boolean (v : JSValue) : bool :=
  match v with JBoolean _ => true | _ => false end.

Definition instanceof_URI (v : JSValue) : bool :=
  match v with JObject true _ => true | _ => false end.

(** [key in v]: a [TypeError], here [None], when [v] is not an object. *)
Definition in_operator (key : string) (v : JSValue) : option bool :=
  match v with
  | JObject _ properties =>
      Some (match properties key with Some _ => true | None => false end)
  | _ => None
  end.

(** [v[key]]: a [TypeError] on [undefined] and [null], [undefined] for
    a property that is not there.  The guards read properties of objects
    only; what the wrapper of a primitive would add is left out. *)
Definition get_property (v : JSValue) (key : string) : option JSValue :=
  match v with
  | JUndefined | JNull => None
  | JObject _ properties =>
      Some (match properties key with Some x => x | None => JUndefined end)
  | _ => Some JUndefined
  end.

(** [a && b] where evaluating either side may throw: [b] is evaluated
    only when [a] is true. *)
Definition and_then (a : option bool) (b : option bool) : option bool :=
  match a with
  | Some true => b
  | Some false => Some false
  | None => None
  end.

(** ['key' in arg && test(arg['key'])]. *)
Definition has_typed_property (arg : JSValue) (key : string)
    (test : JSValue -> bool) : option bool :=
  and_then (in_operator key arg) (option_map test (get_property arg key)).

(** [BaseStat.is]. *)
Definition BaseStat_is (arg : JSValue) : option bool :=
  and_then (Some (truthy arg))
    (and_then (Some (typeof_object arg))
       (and_then (has_typed_property arg "resource" instanceof_URI)
                 (has_typed_property arg "name" typeof_string))).

(** [FileStat.is]. *)
Definition FileStat_is (arg : JSValue) : option bool :=
  and_then (BaseStat_is arg)
    (and_then (has_typed_property arg "isFile" typeof_boolean)
       (and_then (has_typed_property arg "isDirectory" typeof_boolean)
                 (has_typed_property arg "isSymbolicLink" typeof_boolean))).

End Files.

(** ** workspace-duplicate-handler.ts *)

Module WorkspaceDuplicateHandler.

Import Files.

(** A promise, by the way it settles. *)
Inductive Settled (A : Type) :=
| Fulfilled (value : A)
| Rejected (reason : Error).
Arguments Fulfilled {A} _.
Arguments Rejected {A} _.

(** A call of a service method that is not awaited: it throws before it
    returns, or it returns a promise. *)
Inductive Call (A : Type) :=
| Throws (exception : Error)
| Returns (promise : Settled A).
Arguments Throws {A} _.
Arguments Returns {A} _.

(** What the handler does to the world around it. *)
Record World := {
  console_error : list Error;
  copy_calls : list (URI * URI);
  unhandled_rejections : list Error
}.

Definition empty_world : World :=
  {| console_error := []; copy_calls := []; unhandled_rejections := [] |}.

(** A state monad over [World]. *)
Definition M (A : Type) : Type := World -> A * World.

Definition ret {A} (a : A) : M A := fun w => (a, w).

Definition bind {A B} (m : M A) (k : A -> M B) : M B :=
  fun w => let (a, w') := m w in k a w'.

Notation "x <- m ;; k" := (bind m (fun x => k))
  (at level 61, m at next level, right associativity).
Notation "m ;;; k" := (bind m (fun _ => k))
  (at level 61, right associativity).

Definition log_error (e : Error) : M unit :=
  fun w => (tt, {| console_error := console_error w ++ [e];
                   copy_calls := copy_calls w;
                   unhandled_rejections := unhandled_rejections w |}).

Definition record_copy (source target : URI) : M unit :=
  fun w => (tt, {| console_error := console_error w;
                   copy_calls := copy_calls w ++ [(source, target)];
                   unhandled_rejections := unhandled_rejections w |}).

(** A promise that rejects while no handler is attached to it. *)
Definition leave_unhandled (e : Error) : M unit :=
  fun w => (tt, {| console_error := console_error w;
                   copy_calls := copy_calls w;
                   unhandled_rejections := unhandled_rejections w ++ [e] |}).

Fixpoint mapM {A B} (f : A -> M B) (l : list A) : M (list B) :=
  match l with
  | [] => ret []
  | a :: l' => b <- f a ;; bs <- mapM f l' ;; ret (b :: bs)
  end.

(** [Promise.all]: rejected with the reason of a rejected member,
    fulfilled when every member is. *)
Fixpoint Promise_all (l : list (Settled unit)) : Settled unit :=
  match l with
  | [] => Fulfilled tt
  | Fulfilled _ :: l' => Promise_all l'
  | Rejected e :: _ => Rejected e
  end.

Section Handler.

(** The collaborators of the handler; none of them is among the
    source files. *)
Variable FileStat : Type.
Variable parent_resource : FileStat -> URI.
(** [fileService.resolve(uri, options)], awaited by the handler. *)
Variable resolve : URI -> Settled (option FileStat).
(** [workingCopyFileService.copy(source, target)], not awaited. *)
Variable copy : URI -> URI -> Call unit.
Variable generateUniqueResourceURI : URI -> FileStat -> string -> string -> URI.
(** [uri.path.name] and [uri.path.ext]. *)
Variable path_name : URI -> string.
Variable path_ext : URI -> string.

Definition target_of (uri : URI) (parent : FileStat) : URI :=
  let parentUri := parent_resource parent in
  let name := path_name uri ++ "_copy" in
  let ext := path_ext uri in
  generateUniqueResourceURI parentUri parent name ext.

(** The [try { copy(uri, target) } catch (e) { console.error(e) }]
    statement.  The promise that [copy] returns is dropped: the
    [catch] clause sees only what the call throws before it returns. *)
Definition try_copy (uri target : URI) : M unit :=
  record_copy uri target ;;;
  match copy uri target with
  | Throws e => log_error e
  | Returns (Fulfilled _) => ret tt
  | Returns (Rejected e) => leave_unhandled e
  end.

(** The async arrow function mapped over the selection. *)
Definition duplicate (uri : URI) : M (Settled unit) :=
  match resolve (Uri.parent uri) with
  | Rejected e => ret (Rejected e)
  | Fulfilled None => ret (Fulfilled tt)
  | Fulfilled (Some parent) =>
      try_copy uri (target_of uri parent) ;;; ret (Fulfilled tt)
  end.

(** [execute]: the callbacks are taken in the order of the selection,
    which is the order in which they run when the parents resolve in
    that order.  With parents that settle in another order the same
    copies start in that other order, and [Promise.all] takes the
    rejection that comes first in time. *)
Definition execute (uris : list URI) : M (Settled unit) :=
  settled <- mapM duplicate uris ;;
  ret (Promise_all settled).

End Handler.

Section Visibility.

(** [workspaceUtils.containsRootDirectory(uris)]; it is not among the
    source files. *)
Variable containsRootDirectory : list URI -> bool.

(** [!!uris.length]. *)
Definition has_length (uris : list URI) : bool :=
  negb (Nat.eqb (List.length uris) 0).

Definition isVisible (uris : list URI) : bool :=
  has_length uris && negb (containsRootDirectory uris).

Definition isEnabled (uris : list URI) : bool :=
  has_length uris && negb (containsRootDirectory uris).

End Visibility.

(** *** A selection of two sibling files *)

Definition a_txt : URI := Uri.file ["work"; "a.txt"].
Definition b_txt : URI := Uri.file ["work"; "b.txt"].

Definition permission_denied : Error :=
  {| error_class := FileSystemProviderError NoPermissions;
     error_name := "NoPermissions (FileSystemError)";
     error_message := "a.txt" |}.

(** The parent folder resolves; its stat is kept as its identifier. *)
Definition resolve_ok (uri : URI) : Settled (option URI) := Fulfilled (Some uri).

(** Copying [a.txt] is refused by the backend: the promise of the copy
    rejects.  Every other copy succeeds. *)
Definition copy_a_denied (source target : URI) : Call unit :=
  if (Uri.toString source =? Uri.toString a_txt)%string
  then Returns (Rejected permission_denied)
  else Returns (Fulfilled tt).

Definition last_segment (uri : URI) : string := last (path uri) EmptyString.
Definition no_ext (uri : URI) : string := EmptyString.

Definition sibling (parentUri : URI) (parent : URI) (name ext : string) : URI :=
  {| scheme := scheme parentUri; path := path parentUri ++ [name ++ ext] |}.

Definition execute_two_siblings : Settled unit * World :=
  execute URI (fun u => u) resolve_ok copy_a_denied sibling last_segment no_ext
          [a_txt; b_txt] empty_world.

End WorkspaceDuplicateHandler.

(** ** Notions used to state the properties *)

Module Notions.

Import Files.

Definition marker : string := " (FileSystemError)".

(** An error that carries its code as data. *)
Definition structured (e : Error) : Prop :=
  exists code, error_class e = FileSystemProviderError code.

(** An error whose name is the pattern that marking writes, for a code
    of the enumeration. *)
Definition marked_as (e : Error) (code : FileSystemProviderErrorCode) : Prop :=
  In code provider_codes /\ error_name e = code ++ marker.

(** A plain error that went through [markAsFileSystemProviderError]
    with the code NoPermissions. *)
Definition plain_no_permissions : Error :=
  {| error_class := PlainError;
     error_name := "NoPermissions (FileSystemError)";
     error_message := "denied" |}.

(** An error that nothing ever marked. *)
Definition type_error : Error :=
  {| error_class := PlainError;
     error_name := "TypeError";
     error_message := "x is not a function" |}.

(** The batch of one record: the folder [/a/b] was deleted. *)
Definition deleted_a_b : FileChangesEvent :=
  {| changes := [ {| change_type := DELETED;
                     change_resource := Uri.file ["a"; "b"] |} ] |}.

(** The kind of a record agrees with the optional [type] argument. *)
Definition kind_matches (change : FileChange) (type : option FileChangeType) : Prop :=
  match type with
  | Some t => change_type change = t
  | None => True
  end.

Definition a_stat : FileStatWithMetadata :=
  {| stat_resource := Uri.file ["a"; "b"]; stat_name := "b";
     stat_mtime := 1600000000000; stat_ctime := 1600000000000;
     stat_etag := "35lpa9ma3cq7"; stat_size := 12345;
     stat_isFile := true; stat_isDirectory := false;
     stat_isSymbolicLink := false |}.

(** The number that a list of digits stands for, most significant
    digit first. *)
Definition value_of_digits (radix : N) (l : list N) : N :=
  fold_left (fun acc d => (acc * radix + d)%N) l 0%N.

(** A safe integer: a number that holds an integer below 2^53 in
    absolute value, printed by [toString] digit for digit. *)
Definition safe_integer (n : Z) : Prop := (- 2 ^ 53 < n < 2 ^ 53)%Z.

(** An [etag] argument with both fields present. *)
Definition stat_of (m s : Z) : EtagInput := {| mtime := Some m; size := Some s |}.

(** Two modification times of one magnitude: written in base 29, as
    [etag] writes them, they have the same number of characters. *)
Definition same_magnitude (m1 m2 : Z) : Prop :=
  String.length (JS.toString 29 m1) = String.length (JS.toString 29 m2).

(** The times whose base 29 form has nine digits: from November 1985
    to the year 2429, in milliseconds since the epoch. *)
Definition nine_digit_time (m : Z) : Prop :=
  (29 ^ 8 <= m < 29 ^ 9)%Z.

(** The table of [toFileOperationResult], from provider code to result. *)
Definition result_of_code (code : FileSystemProviderErrorCode) : FileOperationResult :=
  if (code =? FileNotFound)%string then FILE_NOT_FOUND
  else if (code =? FileIsADirectory)%string then FILE_IS_DIRECTORY
  else if (code =? FileNotADirectory)%string then FILE_NOT_DIRECTORY
  else if (code =? NoPermissions)%string then FILE_PERMISSION_DENIED
  else if (code =? FileExists)%string then FILE_MOVE_CONFLICT
  else FILE_OTHER_ERROR.

(** The results that a provider code can be mapped to. *)
Definition results_of_codes : list FileOperationResult :=
  [FILE_NOT_FOUND; FILE_IS_DIRECTORY; FILE_NOT_DIRECTORY;
   FILE_PERMISSION_DENIED; FILE_MOVE_CONFLICT; FILE_OTHER_ERROR].

(** An error of the operation level. *)
Definition operation_level (e : Error) : Prop :=
  exists r o, error_class e = FileOperationError r o.

(** A provider error as a backend raises it. *)
Definition disk_full : Error :=
  {| error_class := FileSystemProviderError Unavailable;
     error_name := "Error";
     error_message := "disk full" |}.

(** [object[key] = value]. *)
Definition set_property (properties : string -> option JSValue)
    (key : string) (value : JSValue) : string -> option JSValue :=
  fun k => if (k =? key)%string then Some value else properties k.

(** The batch of the spec's example: [/x] was updated, [/y] was added. *)
Definition updated_x_added_y : FileChangesEvent :=
  {| changes := [ {| change_type := UPDATED; change_resource := Uri.file ["x"] |};
                  {| change_type := ADDED; change_resource := Uri.file ["y"] |} ] |}.

(** [a | b] on numbers. *)
Definition bitor (a b : Z) : Z := Z.lor (JS.ToInt32 a) (JS.ToInt32 b).

(** The provider with another capability bitset. *)
Definition with_capabilities {B : Type} (provider : FileSystemProvider B)
    (c : Z) : FileSystemProvider B :=
  {| capabilities := c; backend := backend provider |}.

(** The members of [FileSystemProviderCapabilities]. *)
Definition all_capabilities : list Z :=
  [FileReadWrite; FileOpenReadWriteClose; FileFolderCopy;
   PathCaseSensitive; Readonly; Trash].

(** The characters an etag is written with: the minus sign, the digits
    and the letters [a] to [u]. *)
Definition etag_char (c : ascii) : bool :=
  let n := N_of_ascii c in
  ((n =? 45) || ((48 <=? n) && (n <=? 57)) || ((97 <=? n) && (n <=? 117)))%N.

(** The property names that the two stat guards look at. *)
Definition guarded_keys : list string :=
  ["resource"; "name"; "isFile"; "isDirectory"; "isSymbolicLink"].

(** An object with no property at all. *)
Definition no_properties : string -> option JSValue := fun _ => None.

(** A base stat as an object: a [URI] under [resource], a string under
    [name]. *)
Definition base_stat_object : JSValue :=
  JObject false
    (set_property
       (set_property no_properties "resource" (JObject true no_properties))
       "name" (JString "a.txt")).

End Notions.

(** ** Notions used to state what the duplicate command does *)

Module DuplicateNotions.

Import Files WorkspaceDuplicateHandler.

Section Outcome.

Variable FileStat : Type.
Variable parent_resource : FileStat -> URI.
Variable resolve : URI -> Settled (option FileStat).
Variable copy : URI -> URI -> Call unit.
Variable generateUniqueResourceURI : URI -> FileStat -> string -> string -> URI.
Variable path_name : URI -> string.
Variable path_ext : URI -> string.

(** How the callback of one resource settles, as far as its parent
    decides it. *)
Definition settled_by_parent (uri : URI) : Settled unit :=
  match resolve (Uri.parent uri) with
  | Rejected e => Rejected e
  | Fulfilled _ => Fulfilled tt
  end.

(** The copies of a selection: one for each resource whose parent
    resolves to a stat, with the target generated for it. *)
Definition started (uris : list URI) : list (URI * URI) :=
  flat_map
    (fun uri =>
       match resolve (Uri.parent uri) with
       | Fulfilled (Some parent) =>
           [(uri, target_of FileStat parent_resource generateUniqueResourceURI
                            path_name path_ext uri parent)]
       | _ => []
       end) uris.

(** What the given copies throw before they return. *)
Definition thrown (calls : list (URI * URI)) : list Error :=
  flat_map (fun call => match copy (fst call) (snd call) with
                        | Throws e => [e]
                        | Returns _ => []
                        end) calls.

(** What the promises of the given copies reject with. *)
Definition rejected (calls : list (URI * URI)) : list Error :=
  flat_map (fun call => match copy (fst call) (snd call) with
                        | Returns (Rejected e) => [e]
                        | _ => []
                        end) calls.

(** The world that [execute] leaves, from the world it finds: the
    copies it starts, what they throw on the console, what their
    promises reject with left without a handler. *)
Definition world_after_execute (uris : list URI) (w : World) : World :=
  {| console_error := console_error w ++ thrown (started uris);
     copy_calls := copy_calls w ++ started uris;
     unhandled_rejections :=
       unhandled_rejections w ++ rejected (started uris) |}.

End Outcome.

End DuplicateNotions.

(** * Properties *)

(** ** Strings *)

Section StringFacts.

Lemma append_length (s t : string) :
  String.length (s ++ t) = String.length s + String.length t.
Proof. induction s as [|c s IH]; simpl; [reflexivity | now rewrite IH]. Qed.

Lemma append_empty_r (s : string) : s ++ EmptyString = s.
Proof. induction s as [|c s IH]; simpl; [reflexivity | now rewrite IH]. Qed.

(** Two concatenations that agree, with first parts of one length,
    agree part by part. *)
Lemma append_inj_length (a b c d : string) :
  String.length a = String.length b -> a ++ c = b ++ d -> a = b /\ c = d.
Proof.
  revert b; induction a as [|x a IH]; intros [|y b] Hlen Heq;
    simpl in *; try discriminate.
  - split; [reflexivity | assumption].
  - injection Heq as -> Heq. injection Hlen as Hlen.
    destruct (IH b Hlen Heq) as [-> ->]. split; reflexivity.
Qed.

Lemma append_same_suffix (p suf : string) : p ++ suf = suf -> p = EmptyString.
Proof.
  intros H. apply (f_equal String.length) in H.
  rewrite append_length in H. destruct p; [reflexivity | simpl in H; lia].
Qed.

Lemma strip_suffix_unfold (suf s : string) :
  JS.strip_suffix suf s =
  if (s =? suf)%string then Some EmptyString
  else match s with
       | EmptyString => None
       | String c s' => option_map (String c) (JS.strip_suffix suf s')
       end.
Proof. destruct s; reflexivity. Qed.

Lemma strip_suffix_app (suf p : string) :
  JS.strip_suffix suf (p ++ suf) = Some p.
Proof.
  induction p as [|c p IH]; rewrite strip_suffix_unfold.
  - simpl. now rewrite String.eqb_refl.
  - destruct (String.eqb_spec (String c p ++ suf) suf) as [E|_].
    + apply append_same_suffix in E. discriminate.
    + simpl. now rewrite IH.
Qed.

Lemma strip_suffix_sound (suf s p : string) :
  JS.strip_suffix suf s = Some p -> s = p ++ suf.
Proof.
  revert p; induction s as [|c s IH]; intros p; rewrite strip_suffix_unfold.
  - destruct (String.eqb_spec EmptyString suf) as [E|_]; [|discriminate].
    now intros [= <-].
  - destruct (String.eqb_spec (String c s) suf) as [E|_].
    + now intros [= <-].
    + destruct (JS.strip_suffix suf s) as [q|] eqn:Hq; simpl; [|discriminate].
      intros [= <-]. simpl. now rewrite (IH q eq_refl).
Qed.

End StringFacts.

(** ** The error taxonomy *)

Section ErrorTaxonomy.

Import Files Notions.

Lemma switch_match_code (c : FileSystemProviderErrorCode) :
  In c provider_codes -> switch_match c = c.
Proof.
  unfold provider_codes. simpl.
  intros [<-|[<-|[<-|[<-|[<-|[<-|[<-|[]]]]]]]]; reflexivity.
Qed.

Lemma switch_match_in (group : string) : In (switch_match group) provider_codes.
Proof.
  unfold switch_match.
  repeat match goal with
         | |- context [if ?b then _ else _] => destruct b
         end; unfold provider_codes; simpl; tauto.
Qed.

Lemma switch_match_other (group : string) :
  ~ In group provider_codes -> switch_match group = Unknown.
Proof.
  intros Hn. unfold switch_match.
  repeat match goal with
         | |- context [if (?a =? ?b)%string then _ else _] =>
             destruct (String.eqb_spec a b) as [E|_];
             [exfalso; apply Hn; rewrite E; unfold provider_codes; simpl; tauto|]
         end.
  reflexivity.
Qed.

Lemma exec_marked (c : FileSystemProviderErrorCode) :
  In c provider_codes -> exec_FileSystemError (c ++ marker) = Some c.
Proof.
  intros Hc. unfold exec_FileSystemError, marker.
  rewrite strip_suffix_app.
  unfold provider_codes in Hc. simpl in Hc.
  destruct Hc as [<-|[<-|[<-|[<-|[<-|[<-|[<-|[]]]]]]]]; reflexivity.
Qed.

Lemma exec_sound (name group : string) :
  exec_FileSystemError name = Some group -> name = group ++ marker.
Proof.
  unfold exec_FileSystemError.
  destruct (JS.strip_suffix _ name) as [p|] eqn:Hp; [|discriminate].
  destruct (_ && _); [|discriminate].
  intros [= <-]. now apply strip_suffix_sound.
Qed.

(** The code survives the loss of the class: what marking writes into
    the name is read back, for every code of the enumeration. *)
Lemma mark_channel_extract (error : Error) (c : FileSystemProviderErrorCode) :
  In c provider_codes ->
  toFileSystemProviderErrorCode
    (Some (through_error_channel (markAsFileSystemProviderError error c))) = c.
Proof.
  intros Hc. unfold toFileSystemProviderErrorCode. simpl.
  replace (JS.truthy_string c) with true.
  - fold marker. rewrite (exec_marked c Hc). now apply switch_match_code.
  - unfold provider_codes in Hc. simpl in Hc.
    destruct Hc as [<-|[<-|[<-|[<-|[<-|[<-|[<-|[]]]]]]]]; reflexivity.
Qed.

(** C1: [toFileOperationResult] gives one result for every error.  An
    error of class [FileOperationError] gives the result it carries.
    Any other error gives the entry of the fixed table for its extracted
    provider code: FileNotFound to FILE_NOT_FOUND, FileIsADirectory to
    FILE_IS_DIRECTORY, FileNotADirectory to FILE_NOT_DIRECTORY,
    NoPermissions to FILE_PERMISSION_DENIED, FileExists to
    FILE_MOVE_CONFLICT, and every other code, in the enumeration or not,
    to FILE_OTHER_ERROR. *)
Theorem toFileOperationResult_table (error : Error) :
  (forall r o, error_class error = FileOperationError r o ->
               toFileOperationResult error = r)
  /\ ((forall r o, error_class error <> FileOperationError r o) ->
      forall code, toFileSystemProviderErrorCode (Some error) = code ->
        (code = FileNotFound -> toFileOperationResult error = FILE_NOT_FOUND)
        /\ (code = FileIsADirectory -> toFileOperationResult error = FILE_IS_DIRECTORY)
        /\ (code = FileNotADirectory -> toFileOperationResult error = FILE_NOT_DIRECTORY)
        /\ (code = NoPermissions -> toFileOperationResult error = FILE_PERMISSION_DENIED)
        /\ (code = FileExists -> toFileOperationResult error = FILE_MOVE_CONFLICT)
        /\ (~ In code [FileNotFound; FileIsADirectory; FileNotADirectory;
                       NoPermissions; FileExists] ->
            toFileOperationResult error = FILE_OTHER_ERROR)).
Proof.
  split.
  - intros r o H. unfold toFileOperationResult. now rewrite H.
  - intros Hcls code Hcode.
    assert (Hunf : toFileOperationResult error =
              if (code =? FileNotFound)%string then FILE_NOT_FOUND
              else if (code =? FileIsADirectory)%string then FILE_IS_DIRECTORY
              else if (code =? FileNotADirectory)%string then FILE_NOT_DIRECTORY
              else if (code =? NoPermissions)%string then FILE_PERMISSION_DENIED
              else if (code =? FileExists)%string then FILE_MOVE_CONFLICT
              else FILE_OTHER_ERROR).
    { unfold toFileOperationResult. rewrite Hcode.
      destruct (error_class error) as [|c|r o] eqn:E; try reflexivity.
      exfalso. exact (Hcls r o eq_refl). }
    rewrite Hunf.
    repeat split; try (intros ->; reflexivity).
    intros Hn.
    repeat match goal with
           | |- context [if (?a =? ?b)%string then _ else _] =>
               destruct (String.eqb_spec a b) as [E|_];
               [exfalso; apply Hn; rewrite E; simpl; tauto|]
           end.
    reflexivity.
Qed.

Lemma toFileOperationResult_table_witness :
  (forall r o, error_class plain_no_permissions <> FileOperationError r o)
  /\ toFileSystemProviderErrorCode (Some plain_no_permissions) = NoPermissions
  /\ toFileOperationResult plain_no_permissions = FILE_PERMISSION_DENIED.
Proof.
  assert (Hc : forall r o,
             error_class plain_no_permissions <> FileOperationError r o)
    by (intros r o; discriminate).
  split; [exact Hc|]. split; [reflexivity|].
  apply (proj2 (toFileOperationResult_table plain_no_permissions) Hc
               NoPermissions eq_refl).
  reflexivity.
Defined.

(** C6: [toFileSystemProviderErrorCode] is defined on every input and
    gives Unknown whenever there is nothing to recover: for [undefined]
    and [null], and for an error that is neither structured nor marked
    in its name.  Where a marking is present the code is recovered: from
    the [code] field of a [FileSystemProviderError] first, whatever the
    name says, and otherwise from the pattern in the name. *)
Theorem toFileSystemProviderErrorCode_extraction :
  toFileSystemProviderErrorCode None = Unknown
  /\ (forall e, ~ structured e -> (forall c, ~ marked_as e c) ->
                toFileSystemProviderErrorCode (Some e) = Unknown)
  /\ (forall e c, error_class e = FileSystemProviderError c ->
                  toFileSystemProviderErrorCode (Some e) = c)
  /\ (forall e c, ~ structured e -> marked_as e c ->
                  toFileSystemProviderErrorCode (Some e) = c)
  /\ (forall e, ~ structured e ->
                In (toFileSystemProviderErrorCode (Some e)) provider_codes).
Proof.
  split; [reflexivity|]. split; [|split; [|split]].
  - intros e Hs Hm. unfold toFileSystemProviderErrorCode.
    destruct (error_class e) as [|c|r o] eqn:E;
      try (exfalso; apply Hs; now exists c).
    all: destruct (exec_FileSystemError (error_name e)) as [g|] eqn:Hg;
      [|reflexivity].
    all: apply switch_match_other; intros Hin;
      apply (Hm g); split; [exact Hin | now apply exec_sound].
  - intros e c E. unfold toFileSystemProviderErrorCode. now rewrite E.
  - intros e c Hs [Hin Hname]. unfold toFileSystemProviderErrorCode.
    destruct (error_class e) as [|c'|r o] eqn:E;
      try (exfalso; apply Hs; now exists c').
    all: rewrite Hname, (exec_marked c Hin); now apply switch_match_code.
  - intros e Hs. unfold toFileSystemProviderErrorCode.
    destruct (error_class e) as [|c'|r o] eqn:E;
      try (exfalso; apply Hs; now exists c').
    all: destruct (exec_FileSystemError (error_name e));
      [apply switch_match_in | unfold provider_codes; simpl; tauto].
Qed.

Lemma type_error_unmarked :
  ~ structured type_error /\ (forall c, ~ marked_as type_error c).
Proof.
  split.
  - intros [c H]. discriminate.
  - intros c [Hin H]. unfold provider_codes in Hin. simpl in Hin.
    destruct Hin as [<-|[<-|[<-|[<-|[<-|[<-|[<-|[]]]]]]]]; discriminate.
Qed.

Lemma toFileSystemProviderErrorCode_extraction_witness :
  toFileSystemProviderErrorCode (Some type_error) = Unknown
  /\ toFileSystemProviderErrorCode (Some plain_no_permissions) = NoPermissions.
Proof.
  destruct toFileSystemProviderErrorCode_extraction
    as (_ & Hnone & _ & Hmark & _).
  split.
  - apply Hnone; apply type_error_unmarked.
  - apply Hmark.
    + intros [c H]. discriminate.
    + split; [unfold provider_codes; simpl; tauto | reflexivity].
Defined.

(** C7: an error marked with the code FileNotFound, sent through a
    channel that keeps only its name and message, still yields
    FileNotFound when its code is extracted. *)
Theorem mark_channel_extract_FileNotFound (error : Error) :
  toFileSystemProviderErrorCode
    (Some (through_error_channel
             (markAsFileSystemProviderError error FileNotFound)))
  = FileNotFound.
Proof.
  apply mark_channel_extract. unfold provider_codes. simpl. tauto.
Qed.

End ErrorTaxonomy.

(** ** Change events and operation events *)

Section Events.

Import Files Notions.

Lemma FileChangeType_eqb_eq (a b : FileChangeType) :
  FileChangeType_eqb a b = true <-> a = b.
Proof. destruct a, b; simpl; split; congruence. Qed.

(** What [contains] computes, record by record: the kind must agree
    with [type] when [type] is given; a Deleted record is then tested
    with [resource.isEqualOrParent(change.resource)], any other record
    by comparing the canonical strings. *)
Lemma contains_iff (this : FileChangesEvent) (r : URI) (type : option FileChangeType) :
  contains this (Some r) type = true <->
  exists change, In change (changes this) /\ kind_matches change type /\
    if FileChangeType_eqb (change_type change) DELETED
    then isEqualOrParent r (change_resource change) = true
    else Uri.toString r = Uri.toString (change_resource change).
Proof.
  unfold contains. rewrite existsb_exists.
  split; intros (change & Hin & H); exists change; (split; [exact Hin|]).
  - unfold contains_callback in H.
    destruct type as [t|]; simpl in *.
    + destruct (FileChangeType_eqb (change_type change) t) eqn:E;
        simpl in H; [|discriminate].
      apply FileChangeType_eqb_eq in E. split; [exact E|].
      destruct (FileChangeType_eqb (change_type change) DELETED);
        [exact H | now apply String.eqb_eq].
    + split; [exact I|].
      destruct (FileChangeType_eqb (change_type change) DELETED);
        [exact H | now apply String.eqb_eq].
  - destruct H as [Hk H]. unfold contains_callback.
    destruct type as [t|]; simpl in *.
    + apply FileChangeType_eqb_eq in Hk. rewrite Hk. simpl.
      destruct (FileChangeType_eqb (change_type change) DELETED);
        [exact H | now apply String.eqb_eq].
    + destruct (FileChangeType_eqb (change_type change) DELETED);
        [exact H | now apply String.eqb_eq].
Qed.

(** The receiver of [isEqualOrParent] is the queried resource, so the
    Deleted records that match are those at or below it. *)
Lemma isEqualOrParent_flip (r d : URI) :
  isEqualOrParent r d = isEqualOrDescendant d r.
Proof.
  unfold isEqualOrParent, isEqualOrDescendant.
  now rewrite (String.eqb_sym (scheme r) (scheme d)).
Qed.

(** With the kind Deleted, [contains] is true exactly when the batch
    holds a Deleted record at or below the queried resource. *)
Lemma contains_deleted_iff (this : FileChangesEvent) (r : URI) :
  contains this (Some r) (Some DELETED) = true <->
  exists change, In change (changes this) /\ change_type change = DELETED /\
                 isEqualOrDescendant (change_resource change) r = true.
Proof.
  rewrite contains_iff.
  split; intros (change & Hin & Hk & H); exists change; simpl in Hk;
    (split; [exact Hin | split; [exact Hk|]]); rewrite Hk in *; simpl in *.
  - now rewrite <- isEqualOrParent_flip.
  - now rewrite isEqualOrParent_flip.
Qed.

(** C3: on the batch that holds one Deleted record for [/a/b],
    [contains] answers false for [/a/b/c] with the kind Deleted, where
    the doc comment of the method promises true; it answers false for
    the kind Updated; and it answers true for the folder [/a] above the
    deleted one. *)
Theorem contains_below_deleted_folder :
  contains deleted_a_b (Some (Uri.file ["a"; "b"; "c"])) (Some DELETED) = false
  /\ contains deleted_a_b (Some (Uri.file ["a"; "b"; "c"])) (Some UPDATED) = false
  /\ contains deleted_a_b (Some (Uri.file ["a"])) (Some DELETED) = true.
Proof. repeat split. Qed.

(** C9: every event built through one of the two constructor overloads
    has a target exactly when its operation is CREATE, MOVE or COPY and
    none when it is DELETE, and keeps that through every later call of
    its methods. *)
Theorem FileOperationEvent_target_invariant (e e' : FileOperationEvent) :
  constructed e -> event_steps e e' -> target_invariant e'.
Proof.
  intros Hc Hs. induction Hs as [e|e1 e2 e3 Hstep _ IH].
  - destruct Hc as [r|r [] t]; unfold target_invariant; simpl;
      congruence.
  - apply IH. now inversion Hstep; subst.
Qed.

Lemma FileOperationEvent_target_invariant_witness :
  target_invariant (new_FileOperationEvent_target (Uri.file ["a"; "b"]) T_COPY a_stat).
Proof.
  apply (FileOperationEvent_target_invariant
           (new_FileOperationEvent_target (Uri.file ["a"; "b"]) T_COPY a_stat)).
  - apply constructed_target.
  - eapply steps_cons; [|apply steps_refl].
    apply (step_isOperation _ DELETE false). reflexivity.
Defined.

Lemma existsb_filter {A : Type} (f : A -> bool) (l : list A) :
  existsb f l = non_empty (filter f l).
Proof.
  induction l as [|a l IH]; simpl; [reflexivity|].
  destruct (f a); simpl; [reflexivity | exact IH].
Qed.

(** C10: for each of the three kinds, the existence check of a batch is
    true exactly when the filter of the same kind returns a list that
    is not empty.  Both are functions of the record list alone. *)
Theorem got_iff_get_non_empty (this : FileChangesEvent) :
  gotAdded this = non_empty (getAdded this)
  /\ gotDeleted this = non_empty (getDeleted this)
  /\ gotUpdated this = non_empty (getUpdated this).
Proof.
  unfold gotAdded, gotDeleted, gotUpdated, getAdded, getDeleted, getUpdated,
    hasType, getOfType.
  repeat split; apply existsb_filter.
Qed.

End Events.

(** ** Capabilities *)

Section Capabilities.

Import Files.
Open Scope Z_scope.

Lemma ToInt32_testbit (n k : Z) :
  0 <= k < 32 -> Z.testbit (JS.ToInt32 n) k = Z.testbit n k.
Proof.
  intros Hk. unfold JS.ToInt32.
  rewrite <- (Z.mod_pow2_bits_low n 32 k) by lia.
  destruct (n mod 2 ^ 32 <? 2 ^ 31); [reflexivity|].
  rewrite <- (Z.mod_pow2_bits_low (n mod 2 ^ 32 - 2 ^ 32) 32 k) by lia.
  f_equal.
  replace (n mod 2 ^ 32 - 2 ^ 32) with (n mod 2 ^ 32 + (-1) * 2 ^ 32) by lia.
  rewrite Z.mod_add by lia. now rewrite Z.mod_mod by lia.
Qed.

Lemma land_pow2 (a k : Z) :
  0 <= k -> Z.land a (2 ^ k) = if Z.testbit a k then 2 ^ k else 0.
Proof.
  intros Hk. apply Z.bits_inj'. intros i Hi.
  rewrite Z.land_spec, Z.pow2_bits_eqb by lia.
  destruct (Z.eqb_spec k i) as [->|Hne].
  - destruct (Z.testbit a i); simpl.
    + now rewrite Z.pow2_bits_true by lia.
    + now rewrite Z.bits_0.
  - rewrite andb_false_r.
    destruct (Z.testbit a k).
    + now rewrite Z.pow2_bits_false by lia.
    + now rewrite Z.bits_0.
Qed.

Lemma bitand_bit (c k : Z) :
  0 <= k < 31 ->
  JS.truthy_number (JS.bitand c (Z.shiftl 1 k)) = Z.testbit c k.
Proof.
  intros Hk. unfold JS.bitand, JS.truthy_number.
  rewrite Z.shiftl_1_l.
  assert (Hp : JS.ToInt32 (2 ^ k) = 2 ^ k).
  { unfold JS.ToInt32.
    assert (0 < 2 ^ k < 2 ^ 31)
      by (split; [apply Z.pow_pos_nonneg; lia
                 | apply Z.pow_lt_mono_r; lia]).
    rewrite Z.mod_small by lia.
    destruct (Z.ltb_spec (2 ^ k) (2 ^ 31)); lia. }
  rewrite Hp, land_pow2 by lia.
  rewrite ToInt32_testbit by lia.
  destruct (Z.testbit c k); [|reflexivity].
  assert (0 < 2 ^ k) by (apply Z.pow_pos_nonneg; lia).
  destruct (Z.eqb_spec (2 ^ k) 0); [lia | reflexivity].
Qed.

(** C5: each of the three capability checks is true exactly when its
    bit of the provider's bitset is set, bit 1 for FileReadWrite, bit 2
    for FileOpenReadWriteClose and bit 3 for FileFolderCopy, and false
    exactly when it is not.  The answer is computed from the bitset
    alone: the operations of the backend play no part in it. *)
Theorem capability_checks_test_one_bit
    (Backend : Type) (provider : FileSystemProvider Backend) :
  hasReadWriteCapability provider = Z.testbit (capabilities provider) 1
  /\ hasOpenReadWriteCloseCapability provider = Z.testbit (capabilities provider) 2
  /\ hasFileFolderCopyCapability provider = Z.testbit (capabilities provider) 3
  /\ (forall other : Backend,
        let provider' := {| capabilities := capabilities provider;
                            backend := other |} in
        hasReadWriteCapability provider' = hasReadWriteCapability provider
        /\ hasOpenReadWriteCloseCapability provider'
           = hasOpenReadWriteCloseCapability provider
        /\ hasFileFolderCopyCapability provider'
           = hasFileFolderCopyCapability provider).
Proof.
  unfold hasReadWriteCapability, hasOpenReadWriteCloseCapability,
    hasFileFolderCopyCapability, FileReadWrite, FileOpenReadWriteClose,
    FileFolderCopy.
  repeat split; try (apply bitand_bit; lia).
Qed.

End Capabilities.

(** ** Etags *)

Section Digits.

Import Notions.
Open Scope N_scope.

Variable radix : N.
Hypothesis radix_ge_2 : 2 <= radix.

Lemma value_of_digits_snoc (l : list N) (d : N) :
  value_of_digits radix (l ++ [d]) = value_of_digits radix l * radix + d.
Proof. unfold value_of_digits. now rewrite fold_left_app. Qed.

(** Reading the digits back gives the number. *)
Lemma value_of_digits_loop (fuel : nat) (n : N) :
  value_of_digits radix (JS.digits_loop fuel radix n) = n.
Proof.
  revert n; induction fuel as [|fuel IH]; intros n; simpl.
  - unfold value_of_digits. simpl. lia.
  - destruct (N.ltb_spec n radix).
    + unfold value_of_digits. simpl. lia.
    + rewrite value_of_digits_snoc, IH.
      pose proof (N.div_mod' n radix). lia.
Qed.

Lemma div_radix_lt (fuel : nat) (n : N) :
  n < 2 ^ N.of_nat (S fuel) -> n / radix < 2 ^ N.of_nat fuel.
Proof.
  intros Hn. apply N.Div0.div_lt_upper_bound.
  rewrite Nat2N.inj_succ, N.pow_succ_r' in Hn. nia.
Qed.

(** With enough fuel every digit is below the radix. *)
Lemma digits_loop_lt (fuel : nat) (n : N) :
  n < 2 ^ N.of_nat fuel ->
  Forall (fun d => d < radix) (JS.digits_loop fuel radix n).
Proof.
  revert n; induction fuel as [|fuel IH]; intros n Hn.
  - simpl in *. constructor; [lia | constructor].
  - cbn [JS.digits_loop]. destruct (N.ltb_spec n radix).
    + constructor; [assumption | constructor].
    + apply Forall_app. split.
      * apply IH. now apply div_radix_lt.
      * constructor; [apply N.mod_lt; lia | constructor].
Qed.

Lemma digits_lt (n : N) : Forall (fun d => d < radix) (JS.digits radix n).
Proof.
  apply digits_loop_lt. rewrite N2Nat.id. apply N.size_gt.
Qed.

Lemma digits_inj (n1 n2 : N) : JS.digits radix n1 = JS.digits radix n2 -> n1 = n2.
Proof.
  unfold JS.digits. intros H.
  apply (f_equal (value_of_digits radix)) in H.
  now rewrite !value_of_digits_loop in H.
Qed.

(** The number of digits of a number between two powers of the radix. *)
Lemma digits_loop_length (k fuel : nat) (n : N) :
  n < 2 ^ N.of_nat fuel ->
  radix ^ N.of_nat k <= n < radix ^ N.of_nat (S k) ->
  List.length (JS.digits_loop fuel radix n) = S k.
Proof.
  revert fuel n; induction k as [|k IH]; intros fuel n Hf Hn.
  - change (N.of_nat 0) with 0 in Hn. change (N.of_nat 1) with 1 in Hn.
    rewrite N.pow_0_r, N.pow_1_r in Hn.
    destruct fuel; simpl; [reflexivity|].
    destruct (N.ltb_spec n radix); [reflexivity | lia].
  - assert (Hpos : 0 < radix ^ N.of_nat k)
      by (apply N.neq_0_lt_0, N.pow_nonzero; lia).
    rewrite !Nat2N.inj_succ, !N.pow_succ_r' in Hn.
    rewrite Nat2N.inj_succ, N.pow_succ_r' in IH.
    destruct fuel as [|fuel].
    + simpl in Hf. nia.
    + cbn [JS.digits_loop]. destruct (N.ltb_spec n radix); [nia|].
      rewrite length_app, (IH fuel (n / radix)); simpl; [lia | |].
      * now apply div_radix_lt.
      * split.
        -- apply N.div_le_lower_bound; lia.
        -- apply N.Div0.div_lt_upper_bound; lia.
Qed.

End Digits.

Section Etag.

Import Files Notions.

Lemma digit_char_code (d : N) :
  (d < 36)%N ->
  N_of_ascii (JS.digit_char d) = if (d <? 10)%N then (48 + d)%N else (87 + d)%N.
Proof.
  intros Hd. unfold JS.digit_char.
  destruct (d <? 10)%N; apply N_ascii_embedding; lia.
Qed.

Lemma digit_char_inj (d1 d2 : N) :
  (d1 < 36)%N -> (d2 < 36)%N -> JS.digit_char d1 = JS.digit_char d2 -> d1 = d2.
Proof.
  intros H1 H2 H. apply (f_equal N_of_ascii) in H.
  rewrite !digit_char_code in H by assumption.
  destruct (N.ltb_spec d1 10), (N.ltb_spec d2 10); lia.
Qed.

Lemma digit_char_not_minus (d : N) : (d < 36)%N -> JS.digit_char d <> "-"%char.
Proof.
  intros Hd H. apply (f_equal N_of_ascii) in H.
  rewrite digit_char_code in H by assumption.
  change (N_of_ascii "-") with 45%N in H.
  destruct (N.ltb_spec d 10); lia.
Qed.

Lemma map_digit_char_inj (l1 l2 : list N) :
  Forall (fun d => d < 36)%N l1 -> Forall (fun d => d < 36)%N l2 ->
  map JS.digit_char l1 = map JS.digit_char l2 -> l1 = l2.
Proof.
  intros H1; revert l2; induction H1 as [|d1 l1 Hd1 _ IH];
    intros l2 H2 H; destruct H2 as [|d2 l2 Hd2 H2]; simpl in H;
    try discriminate; [reflexivity|].
  injection H as Hd Hl. f_equal; [now apply digit_char_inj | now apply IH].
Qed.

Lemma string_of_list_ascii_inj (l1 l2 : list ascii) :
  string_of_list_ascii l1 = string_of_list_ascii l2 -> l1 = l2.
Proof.
  intros H. apply (f_equal list_ascii_of_string) in H.
  now rewrite !list_ascii_of_string_of_list_ascii in H.
Qed.

Lemma string_of_list_ascii_length (l : list ascii) :
  String.length (string_of_list_ascii l) = List.length l.
Proof. induction l as [|c l IH]; simpl; [reflexivity | now rewrite IH]. Qed.

Section Radix.

Variable radix : N.
Hypothesis radix_ge_2 : (2 <= radix)%N.
Hypothesis radix_le_36 : (radix <= 36)%N.

Lemma digits_lt_36 (n : N) : Forall (fun d => d < 36)%N (JS.digits radix n).
Proof.
  eapply Forall_impl; [|apply (digits_lt radix radix_ge_2 n)].
  simpl. intros d Hd. lia.
Qed.

Lemma digits_string_inj (n1 n2 : N) :
  JS.digits_string radix n1 = JS.digits_string radix n2 -> n1 = n2.
Proof.
  unfold JS.digits_string. intros H.
  apply string_of_list_ascii_inj, map_digit_char_inj in H;
    try apply digits_lt_36.
  now apply digits_inj in H.
Qed.

(** The digits of a number never start with a minus sign. *)
Lemma digits_string_head (n : N) (rest : string) :
  JS.digits_string radix n <> String "-" rest.
Proof.
  unfold JS.digits_string. pose proof (digits_lt_36 n) as Hlt.
  destruct (JS.digits radix n) as [|d l] eqn:E.
  - simpl. discriminate.
  - simpl. intros [= H _]. inversion Hlt; subst.
    now apply (digit_char_not_minus d).
Qed.

Lemma digits_string_not_empty (n : N) : JS.digits_string radix n <> EmptyString.
Proof.
  unfold JS.digits_string, JS.digits.
  destruct (N.to_nat (N.size n)) as [|fuel]; simpl; [discriminate|].
  destruct (n <? radix)%N; simpl; [discriminate|].
  destruct (JS.digits_loop fuel radix (n / radix)); simpl; discriminate.
Qed.

Lemma toString_inj (a b : Z) : JS.toString radix a = JS.toString radix b -> a = b.
Proof.
  unfold JS.toString.
  destruct (Z.ltb_spec a 0) as [Ha|Ha], (Z.ltb_spec b 0) as [Hb|Hb];
    intros Heq.
  - injection Heq as Heq. apply digits_string_inj in Heq. lia.
  - symmetry in Heq. now apply digits_string_head in Heq.
  - now apply digits_string_head in Heq.
  - apply digits_string_inj in Heq. lia.
Qed.

Lemma toString_not_empty (a : Z) : JS.toString radix a <> EmptyString.
Proof.
  unfold JS.toString. destruct (a <? 0)%Z; [discriminate|].
  apply digits_string_not_empty.
Qed.

End Radix.

Lemma toString_29_inj (a b : Z) : JS.toString 29 a = JS.toString 29 b -> a = b.
Proof. apply toString_inj; lia. Qed.

Lemma toString_31_inj (a b : Z) : JS.toString 31 a = JS.toString 31 b -> a = b.
Proof. apply toString_inj; lia. Qed.

(** Every time from November 1985 to the year 2429 is written with nine
    characters, so any two of them are of one magnitude. *)
Lemma nine_digit_time_length (m : Z) :
  nine_digit_time m -> String.length (JS.toString 29 m) = 9.
Proof.
  unfold nine_digit_time. intros Hm. unfold JS.toString.
  destruct (Z.ltb_spec m 0); [lia|].
  unfold JS.digits_string, JS.digits.
  rewrite string_of_list_ascii_length, length_map.
  apply (digits_loop_length 29 ltac:(lia) 8).
  - rewrite N2Nat.id. apply N.size_gt.
  - change (N.of_nat 8) with 8%N. change (N.of_nat 9) with 9%N. lia.
Qed.

Lemma nine_digit_times_same_magnitude (m1 m2 : Z) :
  nine_digit_time m1 -> nine_digit_time m2 -> same_magnitude m1 m2.
Proof.
  intros H1 H2. unfold same_magnitude.
  now rewrite !nine_digit_time_length.
Qed.

Lemma etag_stat_of (m s : Z) :
  etag (stat_of m s) = Some (JS.toString 29 m ++ JS.toString 31 s).
Proof. reflexivity. Qed.

(** Across magnitudes the two parts of an etag can be cut in more than
    one place: 1 ms with 31 bytes and 30 ms with 0 bytes share an etag. *)
Lemma etag_across_magnitudes :
  etag (stat_of 1 31) = Some "110" /\ etag (stat_of 30 0) = Some "110".
Proof. split; reflexivity. Qed.

End Etag.

Section EtagProperties.

Import Files Notions.

Lemma etag_inj_same_length (m1 s1 m2 s2 : Z) :
  String.length (JS.toString 29 m1) = String.length (JS.toString 29 m2) ->
  etag (stat_of m1 s1) = etag (stat_of m2 s2) -> m1 = m2 /\ s1 = s2.
Proof.
  intros Hlen H. rewrite !etag_stat_of in H. injection H as H.
  destruct (append_inj_length _ _ _ _ Hlen H) as [Hm Hs].
  split; [now apply toString_29_inj | now apply toString_31_inj].
Qed.



(** C8: when the time or the size is not a number, [etag] gives
    [undefined]; when both are numbers it gives a string that is not the
    empty string [ETAG_DISABLED].  In no case is the result the
    sentinel. *)
Theorem etag_absent_or_live (stat : EtagInput) :
  etag stat <> Some ETAG_DISABLED
  /\ (mtime stat = None \/ size stat = None -> etag stat = None)
  /\ (forall m s, mtime stat = Some m -> size stat = Some s ->
        exists tag, etag stat = Some tag /\ tag <> ETAG_DISABLED).
Proof.
  assert (Hlive : forall m s,
             JS.toString 29 m ++ JS.toString 31 s <> ETAG_DISABLED).
  { intros m s H. apply (f_equal String.length) in H.
    rewrite append_length in H. unfold ETAG_DISABLED in H. simpl in H.
    pose proof (toString_not_empty 29 m) as Hm.
    revert H Hm. destruct (JS.toString 29 m); simpl; [congruence | lia]. }
  destruct stat as [[m|] [s|]]; unfold etag; simpl.
  - split; [intros [= H]; now apply (Hlive m s)|].
    split; [intros [H|H]; discriminate|].
    intros m' s' [= <-] [= <-]. eexists; split; [reflexivity | apply Hlive].
  - repeat split; try discriminate.
  - repeat split; try discriminate.
  - repeat split; try discriminate.
Qed.

Lemma etag_absent_or_live_witness :
  etag {| mtime := None; size := Some 12345%Z |} = None
  /\ exists tag, etag (stat_of 1600000000000 12345) = Some tag
                 /\ tag <> ETAG_DISABLED.
Proof.
  split.
  - apply (proj1 (proj2 (etag_absent_or_live
                           {| mtime := None; size := Some 12345%Z |}))).
    left. reflexivity.
  - apply (proj2 (proj2 (etag_absent_or_live (stat_of 1600000000000 12345)))
             1600000000000%Z 12345%Z); reflexivity.
Defined.

End EtagProperties.

(** ** The duplicate command *)

Section Duplicate.

Import Files WorkspaceDuplicateHandler.
Local Open Scope list_scope.

Variable FileStat : Type.
Variable parent_resource : FileStat -> URI.
Variable resolve : URI -> Settled (option FileStat).
Variable copy : URI -> URI -> Call unit.
Variable generateUniqueResourceURI : URI -> FileStat -> string -> string -> URI.
Variable path_name : URI -> string.
Variable path_ext : URI -> string.

Let duplicate' :=
  duplicate FileStat parent_resource resolve copy generateUniqueResourceURI
            path_name path_ext.
Let execute' :=
  execute FileStat parent_resource resolve copy generateUniqueResourceURI
          path_name path_ext.

Lemma execute_unfold (uris : list URI) (w : World) :
  execute' uris w =
  (Promise_all (fst (mapM duplicate' uris w)), snd (mapM duplicate' uris w)).
Proof.
  unfold execute', execute, bind, ret, duplicate'.
  now destruct (mapM _ uris w).
Qed.

Lemma mapM_cons (u : URI) (uris : list URI) (w : World) :
  mapM duplicate' (u :: uris) w =
  (fst (duplicate' u w) :: fst (mapM duplicate' uris (snd (duplicate' u w))),
   snd (mapM duplicate' uris (snd (duplicate' u w)))).
Proof.
  simpl. unfold bind, ret.
  destruct (duplicate' u w) as [r w1]. simpl.
  now destruct (mapM duplicate' uris w1).
Qed.

(** A failing copy does not stop the others: when every parent folder
    resolves, [copy] is called once for each selected resource, in turn,
    and the promise of [execute] is fulfilled, whatever the copies do. *)
Lemma execute_copies_every_resource (uris : list URI) (w : World) :
  (forall u, In u uris -> exists p, resolve (Uri.parent u) = Fulfilled (Some p)) ->
  fst (execute' uris w) = Fulfilled tt
  /\ map fst (copy_calls (snd (execute' uris w)))
     = map fst (copy_calls w) ++ uris.
Proof.
  rewrite execute_unfold. simpl.
  revert w; induction uris as [|u uris IH]; intros w Hres.
  - simpl. now rewrite app_nil_r.
  - rewrite mapM_cons. simpl.
    destruct (Hres u (or_introl eq_refl)) as [p Hp].
    assert (Hd : fst (duplicate' u w) = Fulfilled tt
                 /\ map fst (copy_calls (snd (duplicate' u w)))
                    = map fst (copy_calls w) ++ [u]).
    { unfold duplicate', duplicate. rewrite Hp.
      unfold try_copy, record_copy, bind, ret.
      destruct (copy u _) as [e|[v|e]]; simpl;
        now rewrite map_app. }
    destruct Hd as [Hd1 Hd2]. rewrite Hd1.
    destruct (IH (snd (duplicate' u w))) as [IH1 IH2].
    { intros u' Hu'. apply Hres. now right. }
    split; [exact IH1|].
    rewrite IH2, Hd2, <- app_assoc. reflexivity.
Qed.

(** What [copy] throws before it returns is logged for its resource. *)
Lemma duplicate_logs_thrown (u : URI) (p : FileStat) (e : Error) (w : World) :
  resolve (Uri.parent u) = Fulfilled (Some p) ->
  copy u (target_of FileStat parent_resource generateUniqueResourceURI
                    path_name path_ext u p) = Throws e ->
  console_error (snd (duplicate' u w)) = console_error w ++ [e].
Proof.
  intros Hp Hc. unfold duplicate', duplicate. rewrite Hp.
  unfold try_copy, bind, ret. simpl. now rewrite Hc.
Qed.

(** What the promise of [copy] rejects with is never logged: as long as
    [copy] returns its promise, [execute] writes nothing to the console,
    and each rejection is left without a handler. *)
Lemma execute_rejections_not_logged (uris : list URI) (w : World) :
  (forall u t, exists promise, copy u t = Returns promise) ->
  console_error (snd (execute' uris w)) = console_error w.
Proof.
  intros Hret. rewrite execute_unfold. simpl.
  revert w; induction uris as [|u uris IH]; intros w; [reflexivity|].
  rewrite mapM_cons. simpl. rewrite IH.
  unfold duplicate', duplicate.
  destruct (resolve (Uri.parent u)) as [[p|]|e]; try reflexivity.
  unfold try_copy, bind, ret. simpl.
  destruct (Hret u (target_of FileStat parent_resource generateUniqueResourceURI
                              path_name path_ext u p)) as [[v|e] ->];
    reflexivity.
Qed.

End Duplicate.

Section DuplicateTwoSiblings.

Import Files WorkspaceDuplicateHandler.

(** C2: two sibling files are selected and the copy of the first is
    refused by the backend with NoPermissions.  Both copies are started
    and the promise of [execute] is fulfilled, but nothing is written to
    the console for the refused copy: its rejection stays without a
    handler, because the call of [copy] inside the [try] block is not
    awaited. *)
Theorem execute_two_siblings_one_denied :
  fst execute_two_siblings = Fulfilled tt
  /\ map fst (copy_calls (snd execute_two_siblings)) = [a_txt; b_txt]
  /\ console_error (snd execute_two_siblings) = []
  /\ unhandled_rejections (snd execute_two_siblings) = [permission_denied].
Proof. repeat split. Qed.

End DuplicateTwoSiblings.

(** * Further properties of the code *)

(** ** Errors: construction, marking and the channel *)

Section ErrorConstruction.

Import Files Notions.

Lemma provider_code_truthy (c : FileSystemProviderErrorCode) :
  In c provider_codes -> JS.truthy_string c = true.
Proof.
  unfold provider_codes. simpl.
  intros [<-|[<-|[<-|[<-|[<-|[<-|[<-|[]]]]]]]]; reflexivity.
Qed.

Lemma toFileOperationResult_by_code (e : Error) :
  ~ operation_level e ->
  toFileOperationResult e
  = result_of_code (toFileSystemProviderErrorCode (Some e)).
Proof.
  intros Hn. unfold toFileOperationResult, result_of_code.
  destruct (error_class e) as [|c|r o] eqn:E; try reflexivity.
  exfalso. apply Hn. now exists r, o.
Qed.

Lemma exec_Error : exec_FileSystemError "Error" = None.
Proof. reflexivity. Qed.

(** X1: an error made by [createFileSystemProviderError] yields the code
    it was made with, whatever the code and whatever it was made from;
    for a code of the enumeration it still does after a channel that
    keeps only name and message. *)
Theorem createFileSystemProviderError_code
    (error : Error + string) (code : FileSystemProviderErrorCode) :
  toFileSystemProviderErrorCode
    (Some (createFileSystemProviderError error code)) = code
  /\ error_message (createFileSystemProviderError error code)
     = Error_or_string_toString error
  /\ (In code provider_codes ->
      toFileSystemProviderErrorCode
        (Some (through_error_channel
                 (createFileSystemProviderError error code))) = code).
Proof.
  split; [reflexivity|]. split; [reflexivity|].
  intros Hc. unfold createFileSystemProviderError.
  now apply mark_channel_extract.
Qed.

Lemma createFileSystemProviderError_code_witness :
  In NoPermissions provider_codes
  /\ toFileSystemProviderErrorCode
       (Some (through_error_channel
                (createFileSystemProviderError (inl type_error) NoPermissions)))
     = NoPermissions.
Proof.
  assert (Hc : In NoPermissions provider_codes)
    by (unfold provider_codes; simpl; tauto).
  split; [exact Hc|].
  exact (proj2 (proj2 (createFileSystemProviderError_code
                         (inl type_error) NoPermissions)) Hc).
Defined.

(** X2: for an error made by [createFileSystemProviderError] with a code
    of the enumeration, [toFileOperationResult] gives the table entry of
    that code, and gives the same after the channel. *)
Theorem createFileSystemProviderError_result
    (error : Error + string) (code : FileSystemProviderErrorCode) :
  In code provider_codes ->
  toFileOperationResult (createFileSystemProviderError error code)
  = result_of_code code
  /\ toFileOperationResult
       (through_error_channel (createFileSystemProviderError error code))
     = result_of_code code.
Proof.
  intros Hc. split.
  - rewrite toFileOperationResult_by_code; [reflexivity|].
    intros (r & o & H). discriminate.
  - rewrite toFileOperationResult_by_code.
    + unfold createFileSystemProviderError.
      now rewrite mark_channel_extract.
    + intros (r & o & H). discriminate.
Qed.

Lemma createFileSystemProviderError_result_witness :
  In FileExists provider_codes
  /\ toFileOperationResult
       (through_error_channel
          (createFileSystemProviderError (inr "exists") FileExists))
     = FILE_MOVE_CONFLICT.
Proof.
  assert (Hc : In FileExists provider_codes)
    by (unfold provider_codes; simpl; tauto).
  split; [exact Hc|].
  exact (proj2 (createFileSystemProviderError_result
                  (inr "exists") FileExists Hc)).
Defined.

(** X3: [ensureFileSystemProviderError] does not change what is
    extracted: the error it returns yields the code of its argument,
    Unknown for [undefined], before and after the channel; an error that
    is given is returned as it is. *)
Theorem ensureFileSystemProviderError_code (error : option Error) :
  toFileSystemProviderErrorCode (Some (ensureFileSystemProviderError error))
  = toFileSystemProviderErrorCode error
  /\ toFileSystemProviderErrorCode
       (Some (through_error_channel (ensureFileSystemProviderError error)))
     = toFileSystemProviderErrorCode (option_map through_error_channel error)
  /\ ensureFileSystemProviderError
       (Some (ensureFileSystemProviderError error))
     = ensureFileSystemProviderError error.
Proof. destruct error as [e|]; repeat split. Qed.

(** X4: marking an error that carries a code as data does not change
    what is extracted from it, the code it carries; once the channel has
    stripped the class, the code of the marking is extracted instead. *)
Theorem mark_structured_error
    (e : Error) (carried code : FileSystemProviderErrorCode) :
  error_class e = FileSystemProviderError carried ->
  toFileSystemProviderErrorCode
    (Some (markAsFileSystemProviderError e code)) = carried
  /\ (In code provider_codes ->
      toFileSystemProviderErrorCode
        (Some (through_error_channel (markAsFileSystemProviderError e code)))
      = code).
Proof.
  intros Hc. split.
  - unfold toFileSystemProviderErrorCode. simpl. now rewrite Hc.
  - apply mark_channel_extract.
Qed.

Lemma mark_structured_error_witness :
  toFileSystemProviderErrorCode
    (Some (markAsFileSystemProviderError disk_full FileNotFound)) = Unavailable
  /\ toFileSystemProviderErrorCode
       (Some (through_error_channel
                (markAsFileSystemProviderError disk_full FileNotFound)))
     = FileNotFound.
Proof.
  destruct (mark_structured_error disk_full Unavailable FileNotFound eq_refl)
    as [H1 H2].
  split; [exact H1|]. apply H2. unfold provider_codes. simpl. tauto.
Defined.

(** X5: marking with the empty code writes the bare name
    [FileSystemError], which the pattern does not match: after the
    channel the error yields Unknown. *)
Theorem mark_with_empty_code (e : Error) :
  error_name (markAsFileSystemProviderError e EmptyString) = "FileSystemError"
  /\ toFileSystemProviderErrorCode
       (Some (through_error_channel
                (markAsFileSystemProviderError e EmptyString))) = Unknown.
Proof. split; reflexivity. Qed.

(** X6: an error that is not a [FileOperationError] is classified as one
    of six results; the results FILE_NOT_MODIFIED_SINCE,
    FILE_MODIFIED_SINCE, FILE_READ_ONLY, FILE_TOO_LARGE,
    FILE_INVALID_PATH and FILE_EXCEEDS_MEMORY_LIMIT come from a
    [FileOperationError] only. *)
Theorem toFileOperationResult_range (e : Error) :
  ~ operation_level e -> In (toFileOperationResult e) results_of_codes.
Proof.
  intros Hn. rewrite (toFileOperationResult_by_code e Hn).
  unfold result_of_code, results_of_codes.
  repeat match goal with
         | |- context [if ?b then _ else _] => destruct b
         end; simpl; tauto.
Qed.

Lemma toFileOperationResult_range_witness :
  In (toFileOperationResult disk_full) results_of_codes.
Proof.
  apply (toFileOperationResult_range disk_full).
  intros (r & o & H). discriminate.
Defined.

(** X7: the result that a [FileOperationError] carries wins over any
    marking put on it; the channel loses it, and a fresh
    [FileOperationError] arrives as FILE_OTHER_ERROR whatever it
    carried. *)
Theorem FileOperationError_result
    (message : string) (r : FileOperationResult)
    (o : option FileOperationOptions) (code : FileSystemProviderErrorCode) :
  toFileOperationResult
    (markAsFileSystemProviderError (new_FileOperationError message r o) code)
  = r
  /\ toFileOperationResult
       (through_error_channel (new_FileOperationError message r o))
     = FILE_OTHER_ERROR
  /\ toFileSystemProviderErrorCode (Some (new_FileOperationError message r o))
     = Unknown.
Proof. repeat split. Qed.

(** X8: a [FileSystemProviderError] built with [new] alone yields its
    code only as long as it keeps its class: its name is not marked, so
    after the channel it yields Unknown and FILE_OTHER_ERROR. *)
Theorem unmarked_provider_error
    (message : string) (code : FileSystemProviderErrorCode) :
  toFileSystemProviderErrorCode
    (Some (new_FileSystemProviderError message code)) = code
  /\ toFileSystemProviderErrorCode
       (Some (through_error_channel (new_FileSystemProviderError message code)))
     = Unknown
  /\ toFileOperationResult
       (through_error_channel (new_FileSystemProviderError message code))
     = FILE_OTHER_ERROR.
Proof. repeat split. Qed.

(** X9: the pattern of [toFileSystemProviderErrorCode] matches exactly
    the names made of a part that is not empty and has no line break,
    followed by [ (FileSystemError)]; the group it captures is that
    part. *)
Theorem exec_FileSystemError_iff (name group : string) :
  exec_FileSystemError name = Some group <->
  name = group ++ marker /\ group <> EmptyString
  /\ JS.no_line_terminator group = true.
Proof.
  unfold exec_FileSystemError. split.
  - destruct (JS.strip_suffix _ name) as [p|] eqn:Hp; [|discriminate].
    destruct (JS.truthy_string p) eqn:Ht; simpl; [|discriminate].
    destruct (JS.no_line_terminator p) eqn:Hl; [|discriminate].
    intros [= E]. subst group. split; [now apply strip_suffix_sound|].
    split; [|exact Hl].
    intros ->. discriminate.
  - intros (-> & Hne & Hl). unfold marker. rewrite strip_suffix_app, Hl.
    destruct group; [congruence | reflexivity].
Qed.

End ErrorConstruction.

(** ** Change batches and operation events *)

Section MoreEvents.

Import Files Notions.
Local Open Scope list_scope.

Lemma existsb_or3 {A : Type} (f g h k : A -> bool) (l : list A) :
  (forall x, f x = g x || h x || k x) ->
  existsb f l = existsb g l || existsb h l || existsb k l.
Proof.
  intros H. induction l as [|a l IH]; simpl; [reflexivity|].
  rewrite IH, H.
  destruct (g a), (h a), (k a), (existsb g l), (existsb h l); reflexivity.
Qed.

(** X10: asking [contains] without a kind is asking for any of the
    three kinds. *)
Theorem contains_any_kind (this : FileChangesEvent) (resource : option URI) :
  contains this resource None
  = contains this resource (Some UPDATED)
    || contains this resource (Some ADDED)
    || contains this resource (Some DELETED).
Proof.
  destruct resource as [r|]; [|reflexivity].
  unfold contains. apply existsb_or3.
  intros c. unfold contains_callback.
  destruct (change_type c); simpl;
    repeat rewrite orb_false_r; reflexivity.
Qed.

(** X11: asking [contains] for a kind gives what asking without a kind
    gives on the batch filtered to that kind. *)
Theorem contains_kind_is_filter
    (this : FileChangesEvent) (resource : option URI) (t : FileChangeType) :
  contains this resource (Some t)
  = contains {| changes := getOfType this t |} resource None.
Proof.
  destruct resource as [r|]; [|reflexivity].
  unfold contains, getOfType. simpl.
  induction (changes this) as [|c l IH]; [reflexivity|].
  simpl. rewrite IH. unfold contains_callback at 1. simpl.
  destruct (FileChangeType_eqb (change_type c) t) eqn:E; simpl.
  - reflexivity.
  - reflexivity.
Qed.

(** X12: for the kinds Added and Updated, [contains] is true exactly
    when the batch holds a record of that kind whose canonical string is
    that of the resource; a record above or below it does not count. *)
Theorem contains_exact_for_added_updated
    (this : FileChangesEvent) (r : URI) (t : FileChangeType) :
  t <> DELETED ->
  contains this (Some r) (Some t) = true <->
  exists change, In change (changes this) /\ change_type change = t
                 /\ Uri.toString r = Uri.toString (change_resource change).
Proof.
  intros Ht. rewrite contains_iff.
  split; intros (c & Hin & Hk & H); exists c; simpl in Hk;
    (split; [exact Hin | split; [exact Hk|]]); rewrite Hk in *;
    destruct t; simpl in *; congruence.
Qed.

Lemma contains_exact_for_added_updated_witness :
  contains updated_x_added_y (Some (Uri.file ["y"])) (Some ADDED) = true <->
  exists change, In change (changes updated_x_added_y)
                 /\ change_type change = ADDED
                 /\ Uri.toString (Uri.file ["y"])
                    = Uri.toString (change_resource change).
Proof.
  apply (contains_exact_for_added_updated updated_x_added_y (Uri.file ["y"]) ADDED).
  discriminate.
Defined.

(** X13: the three filters split the batch: every record is in exactly
    one of [getUpdated], [getAdded] and [getDeleted]. *)
Theorem filters_partition_the_batch (this : FileChangesEvent) :
  Permutation (getUpdated this ++ getAdded this ++ getDeleted this)
              (changes this)
  /\ List.length (getUpdated this) + List.length (getAdded this)
     + List.length (getDeleted this) = List.length (changes this).
Proof.
  unfold getUpdated, getAdded, getDeleted, getOfType.
  induction (changes this) as [|c l [IHp IHl]]; [split; constructor|].
  simpl. destruct (change_type c); simpl; split; try lia.
  - now constructor.
  - apply Permutation_sym, Permutation_cons_app, Permutation_sym, IHp.
  - apply Permutation_sym.
    rewrite app_assoc. apply Permutation_cons_app, Permutation_sym.
    rewrite <- app_assoc. exact IHp.
Qed.

(** X14: filtering a filtered batch gives the same list for the same
    kind and the empty list for another kind. *)
Theorem getOfType_twice (this : FileChangesEvent) (t t' : FileChangeType) :
  getOfType {| changes := getOfType this t |} t'
  = if FileChangeType_eqb t t' then getOfType this t else [].
Proof.
  unfold getOfType. simpl.
  induction (changes this) as [|c l IH].
  - simpl. now destruct (FileChangeType_eqb t t').
  - simpl. destruct (FileChangeType_eqb (change_type c) t) eqn:E; [|exact IH].
    apply FileChangeType_eqb_eq in E. simpl. rewrite E, IH.
    destruct (FileChangeType_eqb t t'); reflexivity.
Qed.

(** X15: on an event built through a constructor overload,
    [isOperation] is true for the operation of the event and for no
    other; when it is true for CREATE, MOVE or COPY the target is there,
    and when it is true for DELETE there is none. *)
Theorem isOperation_guards_target (e : FileOperationEvent) (op : FileOperation) :
  constructed e ->
  (isOperation e op = true <-> operation e = op)
  /\ (isOperation e op = true -> op <> DELETE -> exists t, target e = Some t)
  /\ (isOperation e DELETE = true -> target e = None).
Proof.
  intros Hc. split; [|split].
  - unfold isOperation. destruct (operation e), op; simpl;
      split; congruence.
  - destruct Hc as [r|r o t]; unfold isOperation; simpl.
    + destruct op; simpl; congruence.
    + intros _ _. now exists t.
  - destruct Hc as [r|r [] t]; unfold isOperation; simpl; congruence.
Qed.

Lemma isOperation_guards_target_witness :
  exists t, target (new_FileOperationEvent_target
                      (Uri.file ["a"; "b"]) T_MOVE a_stat) = Some t.
Proof.
  apply (proj1 (proj2 (isOperation_guards_target
                         (new_FileOperationEvent_target
                            (Uri.file ["a"; "b"]) T_MOVE a_stat) MOVE
                         (constructed_target _ _ _)))).
  - reflexivity.
  - discriminate.
Defined.

End MoreEvents.

(** ** Capability bitsets *)

Section MoreCapabilities.

Import Files Notions.
Local Open Scope Z_scope.

Lemma bitor_testbit (a b k : Z) :
  0 <= k < 32 -> Z.testbit (bitor a b) k = Z.testbit a k || Z.testbit b k.
Proof.
  intros Hk. unfold bitor.
  now rewrite Z.lor_spec, !ToInt32_testbit by lia.
Qed.

Lemma add_wrap_testbit (c n k : Z) :
  0 <= k < 32 -> Z.testbit (c + n * 2 ^ 32) k = Z.testbit c k.
Proof.
  intros Hk.
  rewrite <- (Z.mod_pow2_bits_low (c + n * 2 ^ 32) 32 k) by lia.
  rewrite <- (Z.mod_pow2_bits_low c 32 k) by lia.
  now rewrite Z.mod_add by lia.
Qed.

(** X16: adding a member of [FileSystemProviderCapabilities] to a
    bitset with [|] turns on the check of that member and changes no
    other check: PathCaseSensitive, Readonly and Trash change none of
    the three. *)
Theorem adding_a_capability
    (Backend : Type) (provider : FileSystemProvider Backend) (flag : Z) :
  In flag all_capabilities ->
  let provider' :=
    with_capabilities provider (bitor (capabilities provider) flag) in
  hasReadWriteCapability provider'
  = hasReadWriteCapability provider || (flag =? FileReadWrite)
  /\ hasOpenReadWriteCloseCapability provider'
     = hasOpenReadWriteCloseCapability provider
       || (flag =? FileOpenReadWriteClose)
  /\ hasFileFolderCopyCapability provider'
     = hasFileFolderCopyCapability provider || (flag =? FileFolderCopy).
Proof.
  intros Hin. unfold hasReadWriteCapability, hasOpenReadWriteCloseCapability,
    hasFileFolderCopyCapability, FileReadWrite, FileOpenReadWriteClose,
    FileFolderCopy. simpl capabilities.
  rewrite !bitand_bit, !bitor_testbit by lia.
  unfold all_capabilities in Hin. simpl in Hin.
  destruct Hin as [<-|[<-|[<-|[<-|[<-|[<-|[]]]]]]]; repeat split.
Qed.

Lemma adding_a_capability_witness :
  hasFileFolderCopyCapability
    (with_capabilities {| capabilities := FileReadWrite; backend := tt |}
                       (bitor FileReadWrite FileFolderCopy)) = true.
Proof.
  apply (proj2 (proj2 (adding_a_capability unit
                         {| capabilities := FileReadWrite; backend := tt |}
                         FileFolderCopy
                         ltac:(unfold all_capabilities; simpl; tauto)))).
Defined.

(** X17: the checks read the low 32 bits of the bitset only: a multiple
    of 2^32 added to it changes none of them. *)
Theorem capability_checks_wrap
    (Backend : Type) (provider : FileSystemProvider Backend) (n : Z) :
  let provider' :=
    with_capabilities provider (capabilities provider + n * 2 ^ 32) in
  hasReadWriteCapability provider' = hasReadWriteCapability provider
  /\ hasOpenReadWriteCloseCapability provider'
     = hasOpenReadWriteCloseCapability provider
  /\ hasFileFolderCopyCapability provider'
     = hasFileFolderCopyCapability provider.
Proof.
  unfold hasReadWriteCapability, hasOpenReadWriteCloseCapability,
    hasFileFolderCopyCapability, FileReadWrite, FileOpenReadWriteClose,
    FileFolderCopy. simpl capabilities.
  rewrite !bitand_bit, !add_wrap_testbit by lia.
  repeat split.
Qed.

End MoreCapabilities.

(** ** The characters of an etag *)

Section EtagAlphabet.

Import Files Notions.
Local Open Scope list_scope.

Lemma list_ascii_of_string_app (a b : string) :
  list_ascii_of_string (a ++ b)%string
  = list_ascii_of_string a ++ list_ascii_of_string b.
Proof. induction a as [|c a IH]; simpl; [reflexivity | now rewrite IH]. Qed.

Lemma digit_char_etag_char (d : N) :
  (d < 31)%N -> etag_char (JS.digit_char d) = true.
Proof.
  intros Hd. unfold etag_char. rewrite digit_char_code by lia.
  destruct (N.ltb_spec d 10).
  - apply orb_true_iff; left. apply orb_true_iff; right.
    apply andb_true_iff; split; apply N.leb_le; lia.
  - apply orb_true_iff; right.
    apply andb_true_iff; split; apply N.leb_le; lia.
Qed.

Lemma toString_etag_chars (radix : N) (n : Z) :
  (2 <= radix <= 31)%N ->
  Forall (fun c => etag_char c = true)
         (list_ascii_of_string (JS.toString radix n)).
Proof.
  intros Hr.
  assert (Hd : Forall (fun c => etag_char c = true)
                 (list_ascii_of_string (JS.digits_string radix (Z.abs_N n)))).
  { unfold JS.digits_string.
    rewrite list_ascii_of_string_of_list_ascii.
    apply Forall_map.
    eapply Forall_impl; [|apply (digits_lt radix ltac:(lia) (Z.abs_N n))].
    simpl. intros d Hlt. apply digit_char_etag_char. lia. }
  unfold JS.toString. destruct (n <? 0)%Z; [|exact Hd].
  simpl. constructor; [reflexivity | exact Hd].
Qed.

(** X18: every character of an etag is a minus sign, a digit or a
    letter from [a] to [u]. *)
Theorem etag_alphabet (stat : EtagInput) (tag : string) :
  etag stat = Some tag ->
  Forall (fun c => etag_char c = true) (list_ascii_of_string tag).
Proof.
  unfold etag. destruct (size stat) as [s|]; [|discriminate].
  destruct (mtime stat) as [m|]; [|discriminate].
  intros [= <-]. rewrite list_ascii_of_string_app.
  apply Forall_app. split; apply toString_etag_chars; lia.
Qed.

Lemma etag_alphabet_witness :
  Forall (fun c => etag_char c = true) (list_ascii_of_string "35lpa9ma3cq7").
Proof.
  apply (etag_alphabet (stat_of 1600000000000 12345)). reflexivity.
Defined.

End EtagAlphabet.

(** ** The duplicate command on any selection *)

Section MoreDuplicate.

Import Files WorkspaceDuplicateHandler DuplicateNotions.
Local Open Scope list_scope.

Variable FileStat : Type.
Variable parent_resource : FileStat -> URI.
Variable resolve : URI -> Settled (option FileStat).
Variable copy : URI -> URI -> Call unit.
Variable generateUniqueResourceURI : URI -> FileStat -> string -> string -> URI.
Variable path_name : URI -> string.
Variable path_ext : URI -> string.
Variable containsRootDirectory : list URI -> bool.

Local Abbreviation dup :=
  (duplicate FileStat parent_resource resolve copy generateUniqueResourceURI
             path_name path_ext).
Local Abbreviation exec :=
  (execute FileStat parent_resource resolve copy generateUniqueResourceURI
           path_name path_ext).
Local Abbreviation started' :=
  (started FileStat parent_resource resolve generateUniqueResourceURI
           path_name path_ext).
Local Abbreviation settled' := (settled_by_parent FileStat resolve).

Local Abbreviation world_after :=
  (world_after_execute FileStat parent_resource resolve copy
                       generateUniqueResourceURI path_name path_ext).

Lemma duplicate_world (u : URI) (w : World) :
  dup u w = (settled' u, world_after [u] w).
Proof.
  unfold duplicate, settled_by_parent, world_after_execute, started, thrown,
    rejected.
  simpl. destruct w as [c k h].
  destruct (resolve (Uri.parent u)) as [[p|]|e]; simpl;
    rewrite ?app_nil_r; try reflexivity.
  unfold try_copy, record_copy, bind, ret. simpl.
  destruct (copy u _) as [e|[v|e]]; simpl; rewrite ?app_nil_r; reflexivity.
Qed.

Lemma started_app (l1 l2 : list URI) :
  started' (l1 ++ l2) = started' l1 ++ started' l2.
Proof. unfold started. apply flat_map_app. Qed.

Lemma thrown_app (l1 l2 : list (URI * URI)) :
  thrown copy (l1 ++ l2) = thrown copy l1 ++ thrown copy l2.
Proof. unfold thrown. apply flat_map_app. Qed.

Lemma rejected_app (l1 l2 : list (URI * URI)) :
  rejected copy (l1 ++ l2) = rejected copy l1 ++ rejected copy l2.
Proof. unfold rejected. apply flat_map_app. Qed.

Lemma world_after_app (l1 l2 : list URI) (w : World) :
  world_after (l1 ++ l2) w = world_after l2 (world_after l1 w).
Proof.
  unfold world_after_execute.
  cbn [console_error copy_calls unhandled_rejections].
  now rewrite started_app, thrown_app, rejected_app, !app_assoc.
Qed.

Lemma world_after_nil (w : World) : world_after [] w = w.
Proof.
  destruct w. unfold world_after_execute. simpl. now rewrite !app_nil_r.
Qed.

Lemma mapM_world (uris : list URI) (w : World) :
  mapM dup uris w = (map settled' uris, world_after uris w).
Proof.
  revert w; induction uris as [|u uris IH]; intros w.
  - simpl. unfold ret. now rewrite world_after_nil.
  - rewrite mapM_cons, duplicate_world. cbn [fst snd].
    rewrite IH. cbn [fst snd map].
    now rewrite <- world_after_app.
Qed.

(** The result and the world after [execute], for any selection. *)
Lemma execute_world (uris : list URI) (w : World) :
  exec uris w = (Promise_all (map settled' uris), world_after uris w).
Proof.
  rewrite execute_unfold, mapM_world. reflexivity.
Qed.



(** X20: [execute] calls [copy] once for each selected resource whose
    parent resolves to a stat, with the target generated from the name
    followed by [_copy]; a resource whose parent does not resolve, or
    resolves to nothing, is skipped, and skipping it stops no other
    copy.  Nothing is said of the order of the calls, which is the order
    in which the parents settle. *)
Theorem execute_starts_copies (uris : list URI) (w : World) :
  Permutation (copy_calls (snd (exec uris w))) (copy_calls w ++ started' uris)
  /\ (forall u t, In (u, t) (started' uris) <->
        In u uris /\ exists p,
          resolve (Uri.parent u) = Fulfilled (Some p)
          /\ t = generateUniqueResourceURI (parent_resource p) p
                   (path_name u ++ "_copy")%string (path_ext u)).
Proof.
  rewrite execute_world. cbn [snd]. split; [apply Permutation_refl|].
  intros u t. unfold started. rewrite in_flat_map. split.
  - intros (x & Hin & H).
    destruct (resolve (Uri.parent x)) as [[p|]|e] eqn:E; simpl in H;
      try contradiction.
    destruct H as [[= <- <-]|[]]. split; [exact Hin|].
    exists p. split; [exact E | reflexivity].
  - intros (Hin & p & E & ->). exists u. split; [exact Hin|].
    rewrite E. now left.
Qed.



(** X23: the command is visible exactly when it is enabled: never on an
    empty selection, never when the selection holds a root folder, and
    always otherwise. *)
Theorem visible_iff_enabled (uris : list URI) :
  isVisible containsRootDirectory uris = isEnabled containsRootDirectory uris
  /\ isVisible containsRootDirectory [] = false
  /\ (containsRootDirectory uris = true ->
      isVisible containsRootDirectory uris = false)
  /\ (uris <> [] -> containsRootDirectory uris = false ->
      isVisible containsRootDirectory uris = true).
Proof.
  unfold isVisible, isEnabled, has_length.
  split; [reflexivity|]. split; [reflexivity|]. split.
  - intros ->. apply andb_false_r.
  - intros Hne ->. destruct uris; [congruence | reflexivity].
Qed.

End MoreDuplicate.

Section MoreDuplicateWitnesses.

Import Files WorkspaceDuplicateHandler DuplicateNotions.

Lemma visible_iff_enabled_witness :
  isVisible (fun _ => false) [a_txt; b_txt] = true.
Proof.
  apply (proj2 (proj2 (proj2
           (visible_iff_enabled (fun _ => false) [a_txt; b_txt])))).
  - discriminate.
  - reflexivity.
Defined.

End MoreDuplicateWitnesses.

(** ** The guards of the stat interfaces *)

Section StatGuards.

Import Files Notions.

Lemma has_typed_property_object
    (u : bool) (props : string -> option JSValue) (key : string)
    (test : JSValue -> bool) :
  has_typed_property (JObject u props) key test
  = Some (match props key with Some x => test x | None => false end).
Proof.
  unfold has_typed_property, in_operator, get_property, and_then.
  now destruct (props key).
Qed.

Lemma BaseStat_is_object (u : bool) (props : string -> option JSValue) :
  BaseStat_is (JObject u props)
  = Some (match props "resource" with
          | Some x => instanceof_URI x
          | None => false
          end
          && match props "name" with
             | Some x => typeof_string x
             | None => false
             end).
Proof.
  unfold BaseStat_is. rewrite !has_typed_property_object. simpl.
  now destruct (match props "resource" with Some x => _ | None => _ end).
Qed.

Lemma BaseStat_is_not_object (arg : JSValue) :
  (forall u props, arg <> JObject u props) -> BaseStat_is arg = Some false.
Proof.
  intros H. destruct arg as [| |b|n|s|u props]; try reflexivity.
  - now destruct b.
  - unfold BaseStat_is. simpl. now destruct (JS.truthy_number n).
  - unfold BaseStat_is. simpl. now destruct (JS.truthy_string s).
  - exfalso. now apply (H u props).
Qed.

Lemma FileStat_is_object (u : bool) (props : string -> option JSValue) :
  exists b, FileStat_is (JObject u props) = Some b
            /\ (b = true -> BaseStat_is (JObject u props) = Some true).
Proof.
  unfold FileStat_is. rewrite !has_typed_property_object.
  destruct (BaseStat_is_object u props) as [].
  rewrite BaseStat_is_object.
  destruct (_ && _); simpl.
  - repeat match goal with
           | |- context [match props ?k with Some x => _ | None => _ end] =>
               destruct (props k) as [[]|]
           end; simpl; eexists; split; try reflexivity; intros _; reflexivity.
  - exists false. split; [reflexivity | discriminate].
Qed.

(** X24: [BaseStat.is] and [FileStat.is] answer on every value, never
    throwing; what passes [FileStat.is] passes [BaseStat.is]; and
    [BaseStat.is] holds exactly of the objects that have a [URI] under
    [resource] and a string under [name]. *)
Theorem stat_guards (arg : JSValue) :
  (exists b, BaseStat_is arg = Some b)
  /\ (exists b, FileStat_is arg = Some b)
  /\ (FileStat_is arg = Some true -> BaseStat_is arg = Some true)
  /\ (BaseStat_is arg = Some true <->
      exists u props uri_props s,
        arg = JObject u props
        /\ props "resource" = Some (JObject true uri_props)
        /\ props "name" = Some (JString s)).
Proof.
  assert (Hobj : (exists u props, arg = JObject u props)
                 \/ forall u props, arg <> JObject u props).
  { destruct arg; try (right; intros; discriminate). left. eauto. }
  destruct Hobj as [(u & props & ->)|Hno].
  - destruct (FileStat_is_object u props) as (b & Hb & Himp).
    split; [rewrite BaseStat_is_object; eauto|].
    split; [eauto|]. split.
    + rewrite Hb. intros [= ->]. now apply Himp.
    + rewrite BaseStat_is_object. split.
      * intros [= H]. apply andb_true_iff in H. destruct H as [H1 H2].
        destruct (props "resource") as [[| | | | |[] rp]|] eqn:E1;
          try discriminate.
        destruct (props "name") as [[| | | |s|]|] eqn:E2; try discriminate.
        exists u, props, rp, s. now rewrite E2.
      * intros (u' & props' & rp & s & [= <- <-] & -> & ->). reflexivity.
  - pose proof (BaseStat_is_not_object arg Hno) as Hb.
    assert (Hf : FileStat_is arg = Some false)
      by (unfold FileStat_is; now rewrite Hb).
    rewrite Hb, Hf. split; [eauto|]. split; [eauto|].
    split; [discriminate|]. split; [discriminate|].
    intros (u & props & _ & _ & -> & _). exfalso. now apply (Hno u props).
Qed.

Lemma stat_guards_witness :
  BaseStat_is base_stat_object = Some true
  /\ FileStat_is base_stat_object = Some false.
Proof.
  split; [|reflexivity].
  apply (proj2 (proj2 (proj2 (stat_guards base_stat_object)))).
  unfold base_stat_object. do 4 eexists. repeat split.
Defined.

(** X25: the guards look at five properties and at nothing else:
    setting any other property of an object changes the answer of
    neither. *)
Theorem stat_guards_ignore_other_properties
    (u : bool) (props : string -> option JSValue) (key : string) (v : JSValue) :
  ~ In key guarded_keys ->
  BaseStat_is (JObject u (set_property props key v))
  = BaseStat_is (JObject u props)
  /\ FileStat_is (JObject u (set_property props key v))
     = FileStat_is (JObject u props).
Proof.
  intros Hk.
  assert (Hget : forall k, In k guarded_keys ->
                           set_property props key v k = props k).
  { intros k Hin. unfold set_property.
    destruct (String.eqb_spec k key) as [->|_]; [contradiction | reflexivity]. }
  assert (Hb : BaseStat_is (JObject u (set_property props key v))
               = BaseStat_is (JObject u props)).
  { rewrite !BaseStat_is_object.
    rewrite !Hget by (unfold guarded_keys; simpl; tauto). reflexivity. }
  split; [exact Hb|].
  unfold FileStat_is. rewrite Hb, !has_typed_property_object.
  rewrite !Hget by (unfold guarded_keys; simpl; tauto). reflexivity.
Qed.

Lemma stat_guards_ignore_other_properties_witness :
  BaseStat_is (JObject false
                 (set_property
                    (set_property
                       (set_property no_properties "resource"
                                     (JObject true no_properties))
                       "name" (JString "a.txt"))
                    "size" (JNumber 12345)))
  = BaseStat_is base_stat_object.
Proof.
  apply (proj1 (stat_guards_ignore_other_properties false _ "size"
                  (JNumber 12345)
                  ltac:(unfold guarded_keys; simpl;
                        intros [H|[H|[H|[H|[H|[]]]]]]; discriminate))).
Defined.

End StatGuards.

(** ** Etags of present-day times *)

Section EtagOfNineDigitTimes.

Import Files Notions.

Lemma nine_digit_time_safe (m : Z) : nine_digit_time m -> safe_integer m.
Proof. unfold nine_digit_time, safe_integer. lia. Qed.

(** X26: among stats whose modification times lie between November
    1985 and the year 2429 and whose sizes are safe integers, the etag
    tells the stats apart: equal etags come from equal times and equal
    sizes. *)
Theorem etag_injective_on_nine_digit_times (m1 s1 m2 s2 : Z) :
  nine_digit_time m1 -> nine_digit_time m2 ->
  safe_integer s1 -> safe_integer s2 ->
  etag (stat_of m1 s1) = etag (stat_of m2 s2) -> m1 = m2 /\ s1 = s2.
Proof.
  intros H1 H2 _ _. apply etag_inj_same_length.
  now apply nine_digit_times_same_magnitude.
Qed.

Lemma etag_injective_on_nine_digit_times_witness :
  (nine_digit_time 1600000000000 /\ safe_integer 12345)
  /\ (1600000000000 = 1600000000000 /\ 12345 = 12345)%Z.
Proof.
  assert (H : nine_digit_time 1600000000000)
    by (unfold nine_digit_time; lia).
  assert (Hs : safe_integer 12345) by (unfold safe_integer; lia).
  split; [split; [exact H | exact Hs]|].
  apply (etag_injective_on_nine_digit_times
           1600000000000 12345 1600000000000 12345 H H Hs Hs).
  reflexivity.
Defined.

End EtagOfNineDigitTimes.
